(** * Rapatin admin panel: blog management and URL configuration

    A shallow embedding of the blog content-management component
    ([BlogManagement]) and of the URL configuration hook ([useUrlData]),
    with the properties of the specification checked against them. *)

From Stdlib Require Import NArith Ascii String.
From stdpp Require Import gmap strings list fin_maps.

(** ** JavaScript strings

    A JavaScript string is a sequence of UTF-16 code units; a code unit is
    a number below 2^16. *)

Definition code_unit := N.
Bind Scope N_scope with code_unit.
Definition jsstring := list code_unit.

(** Literals of the source, written as Rocq strings (one byte per code unit). *)
Definition js (s : string) : jsstring :=
  map N_of_ascii (list_ascii_of_string s).

Definition in_range (lo hi c : code_unit) : bool :=
  ((lo <=? c) && (c <=? hi))%N.

(** [\w] of a regular expression without the [u] flag: [[A-Za-z0-9_]].  The
    [i] flag adds nothing to it: without [u], a code unit above 127 is never
    folded onto an ASCII one. *)
Definition is_word (c : code_unit) : bool :=
  in_range 48 57 c || in_range 65 90 c || (c =? 95)%N || in_range 97 122 c.

(** [\s]: the white space and line terminator code points of ECMAScript. *)
Definition is_space (c : code_unit) : bool :=
  in_range 9 13 c || (c =? 32)%N || (c =? 160)%N || (c =? 5760)%N
  || in_range 8192 8202 c || (c =? 8232)%N || (c =? 8233)%N
  || (c =? 8239)%N || (c =? 8287)%N || (c =? 12288)%N || (c =? 65279)%N.

Definition hyphen : code_unit := 45%N.

(** [s.replace(/[^\w\s]/gi, '')]: every code unit that is neither a word
    character nor white space is deleted. *)
Definition strip_non_word (s : jsstring) : jsstring :=
  List.filter (fun c => is_word c || is_space c) s.

(** [s.replace(/\s+/g, '-')]: every maximal run of white space becomes one
    hyphen.  [in_run] tells that the previous code unit was white space, so
    that the hyphen of the run has been emitted already. *)
Fixpoint replace_space_runs (in_run : bool) (s : jsstring) : jsstring :=
  match s with
  | [] => []
  | c :: r =>
      if is_space c
      then (if in_run then replace_space_runs true r
            else hyphen :: replace_space_runs true r)
      else c :: replace_space_runs false r
  end.

(** [!s] on a string: only the empty string is falsy. *)
Definition is_empty (s : jsstring) : bool :=
  match s with [] => true | _ :: _ => false end.

(** [String.prototype.toLowerCase] on the code units below 256 (Basic Latin
    and Latin-1 Supplement), where lower-casing is per code unit and stays
    in the range.  The platform's function on the whole of Unicode is a
    parameter of the development; this instance serves the concrete
    examples, whose strings are in that range. *)
Definition lower_latin1 (c : code_unit) : code_unit :=
  if in_range 65 90 c then (c + 32)%N
  else if in_range 192 222 c && negb (c =? 215)%N then (c + 32)%N
  else c.

Definition toLowerCase_latin1 (s : jsstring) : jsstring := map lower_latin1 s.

Section Slug.

(** The platform's [String.prototype.toLowerCase]. *)
Variable toLowerCase : jsstring -> jsstring.

(** The slug derived from the title:
    [title.toLowerCase().replace(/[^\w\s]/gi, '').replace(/\s+/g, '-')]. *)
Definition generateSlug (title : jsstring) : jsstring :=
  replace_space_runs false (strip_non_word (toLowerCase title)).

(** [let finalSlug = formData.slug; if (!finalSlug) { finalSlug = ... }]. *)
Definition finalSlug (slug title : jsstring) : jsstring :=
  if is_empty slug then generateSlug title else slug.

End Slug.

(** ** Blog posts: the data model *)

(** ['draft' | 'published' | 'scheduled']. *)
Inductive Status := draft | published | scheduled.

#[global] Instance Status_eq_dec : EqDecision Status.
Proof. solve_decision. Defined.

(** [BlogPost], as the list query builds it and the page shows it. *)
Module Post.
Record t := mk {
  id : jsstring;
  title : jsstring;
  slug : jsstring;
  excerpt : jsstring;
  content : jsstring;
  coverImage : jsstring;
  category : jsstring;
  author : jsstring;
  date : jsstring;
  status : Status;
  publishedAt : jsstring;
  seoTitle : jsstring;
  metaDescription : jsstring;
  focusKeyword : jsstring
}.
End Post.

(** [BlogPostFormData = Omit<BlogPost, 'id' | 'date'>]. *)
Module Form.
Record t := mk {
  title : jsstring;
  slug : jsstring;
  excerpt : jsstring;
  content : jsstring;
  coverImage : jsstring;
  category : jsstring;
  author : jsstring;
  status : Status;
  publishedAt : jsstring;
  seoTitle : jsstring;
  metaDescription : jsstring;
  focusKeyword : jsstring
}.

(** [{ ...formData, slug: s }]. *)
Definition with_slug (s : jsstring) (f : t) : t :=
  mk (title f) s (excerpt f) (content f) (coverImage f) (category f)
     (author f) (status f) (publishedAt f) (seoTitle f) (metaDescription f)
     (focusKeyword f).

(** [{ ...defaultBlogPostFormData, category: c }]. *)
Definition with_category (c : jsstring) (f : t) : t :=
  mk (title f) (slug f) (excerpt f) (content f) (coverImage f) c
     (author f) (status f) (publishedAt f) (seoTitle f) (metaDescription f)
     (focusKeyword f).
End Form.

Definition defaultBlogPostFormData : Form.t :=
  Form.mk [] [] [] [] [] [] (js "Admin") draft [] [] [] [].

(** The object literal that the create and the update mutation send: the
    columns of [blog_posts] the client writes. *)
Module Cols.
Record t := mk {
  title : jsstring;
  slug : jsstring;
  excerpt : jsstring;
  content : jsstring;
  cover_image : jsstring;
  category : jsstring;
  author : jsstring;
  status : Status;
  published_at : jsstring;
  seo_title : jsstring;
  meta_description : jsstring;
  focus_keyword : jsstring
}.
End Cols.

(** A row of the table [blog_posts].  The text columns are nullable (the
    list query reads them with [|| '']); [created_at] is the backend's
    timestamp, by which the list is ordered. *)
Module Row.
Record t := mk {
  id : jsstring;
  title : option jsstring;
  slug : option jsstring;
  excerpt : option jsstring;
  content : option jsstring;
  cover_image : option jsstring;
  category : option jsstring;
  author : option jsstring;
  status : Status;
  published_at : option jsstring;
  seo_title : option jsstring;
  meta_description : option jsstring;
  focus_keyword : option jsstring;
  created_at : N
}.
End Row.

#[global] Instance code_unit_eq_dec : EqDecision code_unit := N.eq_dec.
#[global] Instance jsstring_eq_dec : EqDecision jsstring := list_eq_dec.

(** ** Handlers as state transformers

    The error object of a failed backend call or of a thrown exception. *)
Record Error := mkError { message : jsstring }.

(** A handler runs on a state [S]; it returns ([inr]) or throws ([inl]). *)
Definition M (S A : Type) : Type := S -> (Error + A) * S.

Definition ret {S A} (a : A) : M S A := fun s => (inr a, s).

Definition throw {S A} (e : Error) : M S A := fun s => (inl e, s).

Definition bind {S A B} (c : M S A) (k : A -> M S B) : M S B :=
  fun s =>
    match c s with
    | (inr a, s') => k a s'
    | (inl e, s') => (inl e, s')
    end.

Notation "'let*' x := c 'in' k" := (bind c (fun x => k))
  (at level 10, x name, c at level 200, k at level 200, only parsing).
Notation "c >> k" := (bind c (fun _ => k))
  (at level 65, right associativity, only parsing).

(** [try { body } catch (err) { handler } finally { fin }]. *)
Definition try_catch_finally {S} (body : M S unit) (handler : Error -> M S unit)
    (fin : M S unit) : M S unit :=
  fun s =>
    match body s with
    | (inr _, s1) => fin s1
    | (inl e, s1) =>
        match handler e s1 with
        | (inr _, s2) => fin s2
        | (inl e', s2) =>
            match fin s2 with
            | (inr _, s3) => (inl e', s3)
            | (inl e'', s3) => (inl e'', s3)
            end
        end
    end.

(** The state a handler leaves, whether it returned or threw. *)
Definition exec {S A} (c : M S A) (s : S) : S := snd (c s).

(** ** The backend table *)

(** Modelled from the spec: the backend is an external collaborator, "queried
    and mutated via a generic table-access client (select/insert/update/delete
    by identifier)"; its code is not part of the repository.  The table is a
    list of rows.  An insert adds a row with the identifier and the creation
    time the backend assigns. *)
Definition db_insert (new_id : jsstring) (created : N) (v : Cols.t)
    (t : list Row.t) : list Row.t :=
  t ++ [Row.mk new_id (Some (Cols.title v)) (Some (Cols.slug v))
          (Some (Cols.excerpt v)) (Some (Cols.content v))
          (Some (Cols.cover_image v)) (Some (Cols.category v))
          (Some (Cols.author v)) (Cols.status v) (Some (Cols.published_at v))
          (Some (Cols.seo_title v)) (Some (Cols.meta_description v))
          (Some (Cols.focus_keyword v)) created].

(** Modelled from the spec: the columns a full update writes into a row. *)
Definition set_cols (v : Cols.t) (r : Row.t) : Row.t :=
  Row.mk (Row.id r) (Some (Cols.title v)) (Some (Cols.slug v))
    (Some (Cols.excerpt v)) (Some (Cols.content v))
    (Some (Cols.cover_image v)) (Some (Cols.category v))
    (Some (Cols.author v)) (Cols.status v) (Some (Cols.published_at v))
    (Some (Cols.seo_title v)) (Some (Cols.meta_description v))
    (Some (Cols.focus_keyword v)) (Row.created_at r).

(** Modelled from the spec: the two columns that the partial update
    [{ status, published_at }] writes into a row. *)
Definition set_status (st : Status) (at_ : jsstring) (r : Row.t) : Row.t :=
  Row.mk (Row.id r) (Row.title r) (Row.slug r) (Row.excerpt r)
    (Row.content r) (Row.cover_image r) (Row.category r) (Row.author r)
    st (Some at_) (Row.seo_title r) (Row.meta_description r)
    (Row.focus_keyword r) (Row.created_at r).

(** Modelled from the spec: update by identifier, [.update(f).eq('id', id)]. *)
Definition db_update (f : Row.t -> Row.t) (id : jsstring) (t : list Row.t)
    : list Row.t :=
  map (fun r => if bool_decide (Row.id r = id) then f r else r) t.

(** Modelled from the spec: delete by identifier, [.delete().eq('id', id)],
    removes the rows with that identifier. *)
Definition db_delete (id : jsstring) (t : list Row.t) : list Row.t :=
  List.filter (fun r => negb (bool_decide (Row.id r = id))) t.

(** Modelled from the spec: [.order('created_at', { ascending: false })]. *)
Fixpoint insert_desc (r : Row.t) (l : list Row.t) : list Row.t :=
  match l with
  | [] => [r]
  | x :: l' =>
      if (Row.created_at x <? Row.created_at r)%N then r :: x :: l'
      else x :: insert_desc r l'
  end.

Definition order_desc (t : list Row.t) : list Row.t :=
  foldr insert_desc [] t.

(** ** The page: view state, notifications and network calls *)

(** [isCreating], [isEditing] and [formData] of the component. *)
Record View := mkView {
  isCreating : bool;
  isEditing : option jsstring;
  formData : Form.t
}.

Inductive Variant := default | destructive.

(** The argument of [toast]. *)
Record Toast := mkToast {
  variant : Variant;
  toast_title : jsstring;
  description : jsstring
}.

(** The calls the page makes on the table [blog_posts]. *)
Inductive Request :=
| ReqInsert (v : Cols.t)
| ReqUpdate (v : Cols.t) (id : jsstring)
| ReqPublish (st : Status) (published_at : jsstring) (id : jsstring)
| ReqDelete (id : jsstring)
| ReqSelect.

(** What the handlers read and change: the view state, the category list
    of the category query, the backend table, and the logs of the
    notifications shown, of the network calls issued and of the query keys
    invalidated (most recent first). *)
Record World := mkWorld {
  view : View;
  categories : list jsstring;
  blog_posts : list Row.t;
  toasts : list Toast;
  requests : list Request;
  invalidated : list jsstring
}.

(** What the environment decides for one user action: the clock
    ([new Date().toISOString()]), whether the backend call fails, the answer
    to the [confirm] dialog, and the identifier and creation time the backend
    gives a new row. *)
Record Env := mkEnv {
  now : jsstring;
  fault : option Error;
  confirm : bool;
  new_id : jsstring;
  new_created_at : N
}.

Definition get_view : M World View := fun w => (inr (view w), w).

Definition get_categories : M World (list jsstring) :=
  fun w => (inr (categories w), w).

Definition set_view (v : View) : M World unit := fun w =>
  (inr tt, mkWorld v (categories w) (blog_posts w) (toasts w) (requests w)
         (invalidated w)).

Definition setIsCreating (b : bool) : M World unit :=
  let* v := get_view in set_view (mkView b (isEditing v) (formData v)).

Definition setIsEditing (e : option jsstring) : M World unit :=
  let* v := get_view in set_view (mkView (isCreating v) e (formData v)).

Definition setFormData (f : Form.t) : M World unit :=
  let* v := get_view in set_view (mkView (isCreating v) (isEditing v) f).

Definition toast (t : Toast) : M World unit := fun w =>
  (inr tt, mkWorld (view w) (categories w) (blog_posts w) (t :: toasts w)
         (requests w) (invalidated w)).

(** [queryClient.invalidateQueries({ queryKey: [key] })]. *)
Definition invalidateQueries (key : jsstring) : M World unit := fun w =>
  (inr tt, mkWorld (view w) (categories w) (blog_posts w) (toasts w)
         (requests w) (key :: invalidated w)).

(** Modelled from the spec: what a successful call does to the table. *)
Definition db_apply (env : Env) (q : Request) (t : list Row.t) : list Row.t :=
  match q with
  | ReqInsert v => db_insert (new_id env) (new_created_at env) v t
  | ReqUpdate v id => db_update (set_cols v) id t
  | ReqPublish st at_ id => db_update (set_status st at_) id t
  | ReqDelete id => db_delete id t
  | ReqSelect => t
  end.

(** One awaited call on [supabase.from('blog_posts')]: the call is logged;
    it fails with the error the environment chose, leaving the table as it
    was, or succeeds and takes effect on the table. *)
Definition supabase (env : Env) (q : Request) : M World (option Error) :=
  fun w =>
    match fault env with
    | Some e =>
        (inr (Some e),
         mkWorld (view w) (categories w) (blog_posts w) (toasts w)
           (q :: requests w) (invalidated w))
    | None =>
        (inr None,
         mkWorld (view w) (categories w) (db_apply env q (blog_posts w))
           (toasts w) (q :: requests w) (invalidated w))
    end.

(** [.select('*').order('created_at', { ascending: false })]: the [{ data,
    error }] of the list query. *)
Definition supabase_select (env : Env) : M World (Error + list Row.t) :=
  let* r := supabase env ReqSelect in
  match r with
  | Some e => ret (inl e)
  | None => fun w => (inr (inr (order_desc (blog_posts w))), w)
  end.

(** The tail of every mutation function: [if (error) throw error]. *)
Definition throw_if_error (r : option Error) : M World unit :=
  match r with
  | Some e => throw e
  | None => ret tt
  end.

(** [useMutation({ mutationFn, onSuccess, onError }).mutate(vars)]: runs
    [onSuccess] when the mutation function returns and [onError] when it
    throws. *)
Definition useMutation {V} (mutationFn : V -> M World unit)
    (onSuccess : M World unit) (onError : Error -> M World unit) (vars : V)
    : M World unit :=
  fun w =>
    match mutationFn vars w with
    | (inr _, w') => onSuccess w'
    | (inl e, w') => onError e w'
    end.

(** ** The component [BlogManagement] *)

Definition quote : code_unit := 34%N.

(** The notification of every [onError]. *)
Definition error_toast (e : Error) : Toast :=
  mkToast destructive (js "Terjadi kesalahan") (message e).

(** The notification of the client-side validation. *)
Definition validation_toast : Toast :=
  mkToast destructive (js "Terjadi kesalahan")
    (js "Judul dan konten harus diisi").

Definition blog_posts_key : jsstring := js "blog-posts".

(** The object that [createPostMutation] inserts. *)
Definition create_values (env : Env) (postData : Form.t) : Cols.t :=
  Cols.mk (Form.title postData) (Form.slug postData) (Form.excerpt postData)
    (Form.content postData) (Form.coverImage postData)
    (Form.category postData) (Form.author postData) (Form.status postData)
    (if bool_decide (Form.status postData = published) then now env
     else Form.publishedAt postData)
    (Form.seoTitle postData) (Form.metaDescription postData)
    (Form.focusKeyword postData).

(** The object that [updatePostMutation] writes. *)
Definition update_values (env : Env) (postData : Form.t) : Cols.t :=
  Cols.mk (Form.title postData) (Form.slug postData) (Form.excerpt postData)
    (Form.content postData) (Form.coverImage postData)
    (Form.category postData) (Form.author postData) (Form.status postData)
    (if bool_decide (Form.status postData = published)
        && is_empty (Form.publishedAt postData)
     then now env else Form.publishedAt postData)
    (Form.seoTitle postData) (Form.metaDescription postData)
    (Form.focusKeyword postData).

Definition createPostMutation (env : Env) : Form.t -> M World unit :=
  useMutation
    (fun postData =>
       let* r := supabase env (ReqInsert (create_values env postData)) in
       throw_if_error r)
    (invalidateQueries blog_posts_key >>
     (let* v := get_view in
      toast (mkToast default (js "Artikel berhasil dibuat")
               (js "Artikel " ++ [quote] ++ Form.title (formData v)
                ++ [quote] ++ js " telah berhasil dibuat"))) >>
     setIsCreating false >>
     (let* cs := get_categories in
      setFormData
        (Form.with_category (match cs with c :: _ => c | [] => [] end)
           defaultBlogPostFormData)))
    (fun e => toast (error_toast e)).

Definition updatePostMutation (env : Env) : jsstring * Form.t -> M World unit :=
  useMutation
    (fun postData =>
       let* r := supabase env (ReqUpdate (update_values env (snd postData))
                                 (fst postData)) in
       throw_if_error r)
    (invalidateQueries blog_posts_key >>
     (let* v := get_view in
      toast (mkToast default (js "Artikel berhasil diperbarui")
               (js "Artikel " ++ [quote] ++ Form.title (formData v)
                ++ [quote] ++ js " telah berhasil diperbarui"))) >>
     setIsEditing None)
    (fun e => toast (error_toast e)).

Definition deletePostMutation (env : Env) : jsstring -> M World unit :=
  useMutation
    (fun id => let* r := supabase env (ReqDelete id) in throw_if_error r)
    (invalidateQueries blog_posts_key >>
     toast (mkToast default (js "Artikel berhasil dihapus")
              (js "Artikel telah berhasil dihapus")))
    (fun e => toast (error_toast e)).

Definition publishPostMutation (env : Env) : jsstring -> M World unit :=
  useMutation
    (fun id =>
       let* r := supabase env (ReqPublish published (now env) id) in
       throw_if_error r)
    (invalidateQueries blog_posts_key >>
     toast (mkToast default (js "Artikel berhasil dipublikasikan")
              (js "Artikel telah berhasil dipublikasikan")))
    (fun e => toast (error_toast e)).

(** [x || d] on a nullable text column. *)
Definition or_else (x : option jsstring) (d : jsstring) : jsstring :=
  match x with
  | Some s => if is_empty s then d else s
  | None => d
  end.

Section BlogManagement.

(** The platform's [String.prototype.toLowerCase]. *)
Variable toLowerCase : jsstring -> jsstring.

(** The platform's rendering of a creation time,
    [new Date(created_at).toLocaleDateString('id-ID', ...)]. *)
Variable toLocaleDateString : N -> jsstring.

(** The [map] of the list query: a row as a [BlogPost]. *)
Definition to_post (post : Row.t) : Post.t :=
  Post.mk (Row.id post)
    (or_else (Row.title post) []) (or_else (Row.slug post) [])
    (or_else (Row.excerpt post) []) (or_else (Row.content post) [])
    (or_else (Row.cover_image post) []) (or_else (Row.category post) [])
    (or_else (Row.author post) (js "Admin"))
    (toLocaleDateString (Row.created_at post))
    (Row.status post)
    (or_else (Row.published_at post) [])
    (or_else (Row.seo_title post) [])
    (or_else (Row.meta_description post) [])
    (or_else (Row.focus_keyword post) []).

(** The [queryFn] of the [blog-posts] query. *)
Definition blogPostsQuery (env : Env) : M World (list Post.t) :=
  let* r := supabase_select env in
  match r with
  | inl e =>
      toast (mkToast destructive (js "Error fetching blog posts") (message e))
      >> ret []
  | inr data => ret (map to_post data)
  end.

Definition handleCreatePost (env : Env) : M World unit :=
  let* v := get_view in
  if is_empty (Form.title (formData v)) || is_empty (Form.content (formData v))
  then toast validation_toast
  else
    createPostMutation env
      (Form.with_slug
         (finalSlug toLowerCase (Form.slug (formData v))
            (Form.title (formData v)))
         (formData v)).

Definition handleStartEdit (post : Post.t) : M World unit :=
  setIsEditing (Some (Post.id post)) >>
  setFormData
    (Form.mk (Post.title post) (Post.slug post) (Post.excerpt post)
       (Post.content post) (Post.coverImage post) (Post.category post)
       (Post.author post) (Post.status post)
       (if is_empty (Post.publishedAt post) then []
        else Post.publishedAt post)
       (Post.seoTitle post) (Post.metaDescription post)
       (Post.focusKeyword post)).

(** [!isEditing] holds for [null] and for the empty string. *)
Definition handleUpdatePost (env : Env) : M World unit :=
  let* v := get_view in
  match isEditing v with
  | None => ret tt
  | Some id =>
      if is_empty id then ret tt
      else if is_empty (Form.title (formData v))
              || is_empty (Form.content (formData v))
      then toast validation_toast
      else
        updatePostMutation env
          (id,
           Form.with_slug
             (finalSlug toLowerCase (Form.slug (formData v))
                (Form.title (formData v)))
             (formData v))
  end.

Definition handleDeletePost (env : Env) (id : jsstring) : M World unit :=
  if confirm env then deletePostMutation env id else ret tt.

Definition handlePublishPost (env : Env) (id : jsstring) : M World unit :=
  publishPostMutation env id.

End BlogManagement.

(** ** The hook [useUrlData]: objects and references *)

(** Modelled from the spec: the declaration of [Urls] ('@/types/supabase') is
    not among the sources.  The hook reads the [id] of a group, its [items]
    (which may be absent) and the [url] of an item. *)
Module Urls.
Record item := mkItem { url : jsstring }.
Record t := mk { id : jsstring; items : option (list item) }.
End Urls.

(** Objects live in a heap and are held by reference.  A section object
    ([hero], [cta], ...) maps its button names to URLs. *)
Definition loc := nat.
Abbreviation heap := (gmap loc (gmap string jsstring)).

(** The top-level object of the URL map: five properties, each a reference
    to a section object.  No code assigns to a property of a top-level
    object, so these are values. *)
Record UrlMap := mkUrlMap {
  hero : loc;
  cta : loc;
  navbar : loc;
  pricing : loc;
  dashboard : loc
}.

(** The module-level [const defaultUrls]: evaluating the literal allocates
    the five section objects of [heap0] and the top-level object holding
    them. *)
Definition defaultUrls : UrlMap := mkUrlMap 0 1 2 3 4.

Definition heap0 : heap :=
  <[0 := <["ctaButton" := js "https://rapatin.id/register"]>
           (<["pricingButton" := js "#pricing"]> ∅)]>
  (<[1 := <["registerButton" := js "https://rapatin.id/register"]> ∅]>
  (<[2 := <["loginButton" := js "https://rapatin.id/login"]>
           (<["registerButton" := js "https://rapatin.id/register"]> ∅)]>
  (<[3 := <["scheduleButton" := js "https://app.rapatin.id/register"]> ∅]>
  (<[4 := <["registerButton" := js "https://app.rapatin.id/register"]> ∅]>
   ∅)))).

(** [{ ...o }]: a new top-level object with the same five references. *)
Definition spread (o : UrlMap) : UrlMap :=
  mkUrlMap (hero o) (cta o) (navbar o) (pricing o) (dashboard o).

(** [o.f = v] on the section object at [l].  A reference of the program
    always points to an object of the heap. *)
Definition assign (l : loc) (f : string) (v : jsstring) (h : heap) : heap :=
  alter (insert f v) l h.

(** What a component reads through a URL map: the seven URLs. *)
Record UrlValues := mkUrlValues {
  hero_ctaButton : jsstring;
  hero_pricingButton : jsstring;
  cta_registerButton : jsstring;
  navbar_loginButton : jsstring;
  navbar_registerButton : jsstring;
  pricing_scheduleButton : jsstring;
  dashboard_registerButton : jsstring
}.

(** [o.s.f]: [None] when the section object or the property is missing. *)
Definition get_field (h : heap) (l : loc) (f : string) : option jsstring :=
  match h !! l with
  | Some o => o !! f
  | None => None
  end.

(** Reading all seven URLs through [u] in the heap [h]. *)
Definition read (h : heap) (u : UrlMap) : option UrlValues :=
  match get_field h (hero u) "ctaButton",
        get_field h (hero u) "pricingButton",
        get_field h (cta u) "registerButton",
        get_field h (navbar u) "loginButton",
        get_field h (navbar u) "registerButton",
        get_field h (pricing u) "scheduleButton",
        get_field h (dashboard u) "registerButton" with
  | Some a, Some b, Some c, Some d, Some e, Some f, Some g =>
      Some (mkUrlValues a b c d e f g)
  | _, _, _, _, _, _, _ => None
  end.

(** The literals of [defaultUrls]. *)
Definition default_values : UrlValues :=
  mkUrlValues (js "https://rapatin.id/register") (js "#pricing")
    (js "https://rapatin.id/register")
    (js "https://rapatin.id/login") (js "https://rapatin.id/register")
    (js "https://app.rapatin.id/register")
    (js "https://app.rapatin.id/register").

(** ** The hook [useUrlData]: state and effect *)

(** [urls], [loading] and [error] of one use of the hook. *)
Record Hook := mkHook {
  urls : UrlMap;
  loading : bool;
  error : option Error
}.

(** The initial state: [useState(defaultUrls)], [useState(true)],
    [useState(null)]. *)
Definition initial_hook : Hook := mkHook defaultUrls true None.

(** The heap, which all uses of the hook share, the state of this use, and
    the entry ['urlData'] of local storage. *)
Record Page := mkPage {
  page_heap : heap;
  hook : Hook;
  urlData : option jsstring
}.

Definition setUrls (u : UrlMap) : M Page unit := fun p =>
  (inr tt,
   mkPage (page_heap p) (mkHook u (loading (hook p)) (error (hook p)))
     (urlData p)).

Definition setLoading (b : bool) : M Page unit := fun p =>
  (inr tt,
   mkPage (page_heap p) (mkHook (urls (hook p)) b (error (hook p)))
     (urlData p)).

Definition setError (e : Error) : M Page unit := fun p =>
  (inr tt,
   mkPage (page_heap p) (mkHook (urls (hook p)) (loading (hook p)) (Some e))
     (urlData p)).

Definition modify_heap (f : heap -> heap) : M Page unit := fun p =>
  (inr tt, mkPage (f (page_heap p)) (hook p) (urlData p)).

(** [localStorage.getItem('urlData')]. *)
Definition getItem_urlData : M Page (option jsstring) := fun p =>
  (inr (urlData p), p).

(** The body of the [forEach] of [mapUrlsToState], for one group. *)
Definition overlay_group (newUrls : UrlMap) (group : Urls.t) (h : heap)
    : heap :=
  match Urls.items group with
  | None => h
  | Some items =>
      if bool_decide (Urls.id group = js "1") && (2 <=? length items)%nat
      then
        match items with
        | i0 :: i1 :: _ =>
            assign (hero newUrls) "pricingButton" (Urls.url i1)
              (assign (hero newUrls) "ctaButton" (Urls.url i0) h)
        | _ => h
        end
      else if bool_decide (Urls.id group = js "2") && (1 <=? length items)%nat
      then
        match items with
        | i0 :: _ => assign (cta newUrls) "registerButton" (Urls.url i0) h
        | _ => h
        end
      else if bool_decide (Urls.id group = js "3") && (2 <=? length items)%nat
      then
        match items with
        | i0 :: i1 :: _ =>
            assign (navbar newUrls) "registerButton" (Urls.url i1)
              (assign (navbar newUrls) "loginButton" (Urls.url i0) h)
        | _ => h
        end
      else if bool_decide (Urls.id group = js "4") && (1 <=? length items)%nat
      then
        match items with
        | i0 :: _ => assign (pricing newUrls) "scheduleButton" (Urls.url i0) h
        | _ => h
        end
      else if bool_decide (Urls.id group = js "5") && (1 <=? length items)%nat
      then
        match items with
        | i0 :: _ =>
            assign (dashboard newUrls) "registerButton" (Urls.url i0) h
        | _ => h
        end
      else h
  end.

(** [const newUrls = { ...defaultUrls }; data.forEach(...);
    setUrls(newUrls)]. *)
Definition mapUrlsToState (data : list Urls.t) : M Page unit :=
  let newUrls := spread defaultUrls in
  modify_heap (fun h => foldl (fun h g => overlay_group newUrls g h) h data)
  >> setUrls newUrls.

(** What the awaited [supabase.from('urls').select('*')] gives: the pair
    [{ data, error }], or a rejection. *)
Inductive Response :=
| Resolved (data : option (list Urls.t)) (err : option Error)
| Rejected (e : Error).

Section UseUrlData.

(** The platform's [JSON.parse], on the text of the cached copy: it throws
    ([inl]) or gives the cached groups. *)
Variable JSON_parse : jsstring -> Error + list Urls.t.

(** The error branch of [fetchUrls]. *)
Definition fallback_to_localStorage (e : Error) : M Page unit :=
  setError e >>
  let* localData := getItem_urlData in
  match localData with
  | Some s =>
      if is_empty s then ret tt
      else
        match JSON_parse s with
        | inl ex => throw ex
        | inr parsedData => mapUrlsToState parsedData
        end
  | None => ret tt
  end.

(** [fetchUrls], which the effect runs once when the hook is mounted. *)
Definition fetchUrls (r : Response) : M Page unit :=
  try_catch_finally
    (setLoading true >>
     match r with
     | Rejected e => throw e
     | Resolved _ (Some e) => fallback_to_localStorage e
     | Resolved data None =>
         match data with
         | Some (g :: gs) => mapUrlsToState (g :: gs)
         | _ => ret tt
         end
     end)
    (fun err => setError err)
    (setLoading false).

End UseUrlData.

(** ** The overlay on values

    The overlay as the specification words it: the values of the cached or
    fetched groups are laid over a map of URLs, each group on the section
    its identifier names. *)
Definition overlay_values_group (v : UrlValues) (group : Urls.t) : UrlValues :=
  match Urls.items group with
  | Some (i0 :: rest) =>
      if bool_decide (Urls.id group = js "1") then
        match rest with
        | i1 :: _ =>
            mkUrlValues (Urls.url i0) (Urls.url i1) (cta_registerButton v)
              (navbar_loginButton v) (navbar_registerButton v)
              (pricing_scheduleButton v) (dashboard_registerButton v)
        | [] => v
        end
      else if bool_decide (Urls.id group = js "2") then
        mkUrlValues (hero_ctaButton v) (hero_pricingButton v) (Urls.url i0)
          (navbar_loginButton v) (navbar_registerButton v)
          (pricing_scheduleButton v) (dashboard_registerButton v)
      else if bool_decide (Urls.id group = js "3") then
        match rest with
        | i1 :: _ =>
            mkUrlValues (hero_ctaButton v) (hero_pricingButton v)
              (cta_registerButton v) (Urls.url i0) (Urls.url i1)
              (pricing_scheduleButton v) (dashboard_registerButton v)
        | [] => v
        end
      else if bool_decide (Urls.id group = js "4") then
        mkUrlValues (hero_ctaButton v) (hero_pricingButton v)
          (cta_registerButton v) (navbar_loginButton v)
          (navbar_registerButton v) (Urls.url i0) (dashboard_registerButton v)
      else if bool_decide (Urls.id group = js "5") then
        mkUrlValues (hero_ctaButton v) (hero_pricingButton v)
          (cta_registerButton v) (navbar_loginButton v)
          (navbar_registerButton v) (pricing_scheduleButton v) (Urls.url i0)
      else v
  | _ => v
  end.

Definition overlay_values (v : UrlValues) (data : list Urls.t) : UrlValues :=
  foldl overlay_values_group v data.

(** ** Outcomes named in the properties *)

(** What a failed backend call leaves: the call logged and the error
    notification shown, nothing else changed. *)
Definition after_failure (q : Request) (e : Error) (w : World) : World :=
  mkWorld (view w) (categories w) (blog_posts w) (error_toast e :: toasts w)
    (q :: requests w) (invalidated w).


(** ** States used in the examples *)

Definition example_time : jsstring := js "2025-06-01T08:30:00.000Z".

Definition example_error : Error := mkError (js "Failed to fetch").

(** The backend accepts the call; the user confirms. *)
Definition env_ok : Env := mkEnv example_time None true (js "p7") 700.

(** The backend fails the call. *)
Definition env_fail : Env :=
  mkEnv example_time (Some example_error) true (js "p7") 700.

Definition form_with (title slug content : string) (st : Status)
    (publishedAt : string) : Form.t :=
  Form.mk (js title) (js slug) [] (js content) [] (js "Tips") (js "Admin")
    st (js publishedAt) (js title) [] [].

Definition row_with (id title : string) (st : Status)
    (published_at : option jsstring) (created : N) : Row.t :=
  Row.mk (js id) (Some (js title)) (Some (js id)) None (Some (js "..."))
    None (Some (js "Tips")) None st published_at None None None created.

(** A table of three posts; the draft [p2] already has a publish time. *)
Definition example_table : list Row.t :=
  [ row_with "p1" "Satu" published (Some (js "2024-01-05T10:00:00.000Z")) 100;
    row_with "p2" "Dua" draft (Some (js "2024-02-01T09:00:00.000Z")) 300;
    row_with "p3" "Tiga" draft None 200 ].

(** The page while a form is open, on [example_table]. *)
Definition world_with (creating : bool) (editing : option jsstring)
    (f : Form.t) : World :=
  mkWorld (mkView creating editing f) [js "Tips"; js "Berita"] example_table
    [] [] [].

(** The page when the hook is first mounted: the heap as the literal of
    [defaultUrls] made it, nothing cached. *)
Definition fresh_page : Page := mkPage heap0 initial_hook None.

(** Groups as the table [urls] or a cached copy may hold them: the hero
    section with two links, the pricing section with one, and a navbar group
    that has too few items to be used. *)
Definition example_groups : list Urls.t :=
  [ Urls.mk (js "1")
      (Some [Urls.mkItem (js "https://rapatin.id/daftar");
             Urls.mkItem (js "#harga")]);
    Urls.mk (js "4") (Some [Urls.mkItem (js "https://app.rapatin.id/jadwal")]);
    Urls.mk (js "3") (Some [Urls.mkItem (js "https://rapatin.id/masuk")]) ].

Definition example_overlaid : UrlValues :=
  mkUrlValues (js "https://rapatin.id/daftar") (js "#harga")
    (js "https://rapatin.id/register")
    (js "https://rapatin.id/login") (js "https://rapatin.id/register")
    (js "https://app.rapatin.id/jadwal")
    (js "https://app.rapatin.id/register").

(** A parser for the examples: the one text "[groups]" stands for the
    serialised [example_groups]; any other text is rejected. *)
Definition example_parse (s : jsstring) : Error + list Urls.t :=
  if bool_decide (s = js "[groups]") then inr example_groups
  else inl (mkError (js "Unexpected token")).

(** ** The form of [BlogManagement]: inputs, effect and buttons *)

(** The text properties of [BlogPostFormData]. *)
Inductive TextField :=
| FTitle | FSlug | FExcerpt | FContent | FCoverImage | FCategory | FAuthor
| FPublishedAt | FSeoTitle | FMetaDescription | FFocusKeyword.

#[global] Instance TextField_eq_dec : EqDecision TextField.
Proof. solve_decision. Defined.

(** [formData[field]]. *)
Definition get_text (k : TextField) (f : Form.t) : jsstring :=
  match k with
  | FTitle => Form.title f
  | FSlug => Form.slug f
  | FExcerpt => Form.excerpt f
  | FContent => Form.content f
  | FCoverImage => Form.coverImage f
  | FCategory => Form.category f
  | FAuthor => Form.author f
  | FPublishedAt => Form.publishedAt f
  | FSeoTitle => Form.seoTitle f
  | FMetaDescription => Form.metaDescription f
  | FFocusKeyword => Form.focusKeyword f
  end.

(** [{ ...formData, [field]: value }] for a text property. *)
Definition set_text (k : TextField) (v : jsstring) (f : Form.t) : Form.t :=
  Form.mk
    (if decide (k = FTitle) then v else Form.title f)
    (if decide (k = FSlug) then v else Form.slug f)
    (if decide (k = FExcerpt) then v else Form.excerpt f)
    (if decide (k = FContent) then v else Form.content f)
    (if decide (k = FCoverImage) then v else Form.coverImage f)
    (if decide (k = FCategory) then v else Form.category f)
    (if decide (k = FAuthor) then v else Form.author f)
    (Form.status f)
    (if decide (k = FPublishedAt) then v else Form.publishedAt f)
    (if decide (k = FSeoTitle) then v else Form.seoTitle f)
    (if decide (k = FMetaDescription) then v else Form.metaDescription f)
    (if decide (k = FFocusKeyword) then v else Form.focusKeyword f).

(** [{ ...formData, status: s }]. *)
Definition set_form_status (s : Status) (f : Form.t) : Form.t :=
  Form.mk (Form.title f) (Form.slug f) (Form.excerpt f) (Form.content f)
    (Form.coverImage f) (Form.category f) (Form.author f) s
    (Form.publishedAt f) (Form.seoTitle f) (Form.metaDescription f)
    (Form.focusKeyword f).

(** The arguments of [handleInputChange]: a text property with its value,
    or the status with one of the three values the select offers. *)
Inductive FieldValue :=
| TextValue (k : TextField) (v : jsstring)
| StatusValue (s : Status).

Definition handleInputChange (x : FieldValue) : M World unit :=
  let* v := get_view in
  setFormData
    match x with
    | TextValue k value => set_text k value (formData v)
    | StatusValue s => set_form_status s (formData v)
    end.

(** The body of the effect on [formData.title]: the SEO title is copied
    from the title while it is empty. *)
Definition syncSeoTitle : M World unit :=
  let* v := get_view in
  if negb (is_empty (Form.title (formData v)))
     && is_empty (Form.seoTitle (formData v))
  then setFormData (set_text FSeoTitle (Form.title (formData v)) (formData v))
  else ret tt.

(** A handler followed by the effects of the render it causes: the effect has
    the dependency [formData.title] and runs when the title has changed. *)
Definition with_effects (handler : M World unit) : M World unit :=
  let* before := get_view in
  handler >>
  let* after := get_view in
  if bool_decide (Form.title (formData after) = Form.title (formData before))
  then ret tt
  else syncSeoTitle.

(** [handleImageUpload], on the answer of the [prompt] dialog ([None] when
    it is cancelled). *)
Definition handleImageUpload (imageUrl : option jsstring) : M World unit :=
  match imageUrl with
  | Some u =>
      if is_empty u then ret tt
      else
        let* v := get_view in
        setFormData (set_text FCoverImage u (formData v))
  | None => ret tt
  end.

(** The two forms that [renderBlogForm] draws. *)
Inductive Action := create | edit.

(** The button "Batal" of a form. *)
Definition onCancel (action : Action) : M World unit :=
  match action with
  | create => setIsCreating false
  | edit => setIsEditing None
  end.

(** The button "Tambah Artikel" of the list. *)
Definition onAddPost : M World unit := setIsCreating true.

(** What the component renders, given [isLoading] of the list query. *)
Inductive Screen := Spinner | CreateForm | EditForm | PostList.

Definition screen (isLoading : bool) (v : View) : Screen :=
  if isLoading then Spinner
  else if isCreating v then CreateForm
  else match isEditing v with
       | Some _ => EditForm
       | None => PostList
       end.

(** The button "Publish" of a listed post is drawn for drafts only. *)
Definition publish_offered (post : Post.t) : bool :=
  bool_decide (Post.status post = draft).

(** A row of the table [blog_categories], of which the page reads the
    name. *)
Module Category.
Record t := mk { name : jsstring }.
End Category.

(** The [queryFn] of the [blog-categories] query, on the [{ data, error }]
    of its select: the names of the rows, or no category after an error. *)
Definition categoriesQuery (resp : Error + list Category.t)
    : M World (list jsstring) :=
  match resp with
  | inl e =>
      toast (mkToast destructive (js "Error fetching categories") (message e))
      >> ret []
  | inr data => ret (map Category.name data)
  end.

(** [categories = categoriesData || []], once the query has run. *)
Definition loadCategories (resp : Error + list Category.t) : M World unit :=
  let* data := categoriesQuery resp in
  fun w =>
    (inr tt,
     mkWorld (view w) data (blog_posts w) (toasts w) (requests w)
       (invalidated w)).

(** ** The ways a handler ends

    A handler that may call the backend returns, having sent nothing, or
    having had its call failed, or having had it accepted. *)
Definition nothing_sent (w w' : World) : Prop :=
  requests w' = requests w /\ invalidated w' = invalidated w /\
  blog_posts w' = blog_posts w /\ view w' = view w /\
  categories w' = categories w /\
  (toasts w' = toasts w \/ toasts w' = validation_toast :: toasts w).

Definition call_failed (env : Env) (w w' : World) : Prop :=
  exists q e, fault env = Some e /\ w' = after_failure q e w.

Definition call_accepted (env : Env) (w w' : World) : Prop :=
  exists q t,
    fault env = None /\ requests w' = q :: requests w /\
    invalidated w' = blog_posts_key :: invalidated w /\
    toasts w' = t :: toasts w /\ variant t = default /\
    blog_posts w' = db_apply env q (blog_posts w) /\
    categories w' = categories w.

Definition handler_outcome (env : Env) (h : M World unit) (w : World) : Prop :=
  exists w',
    h w = (inr tt, w') /\
    (nothing_sent w w' \/ call_failed env w w' \/ call_accepted env w w').

(** ** Editing a listed post *)

(** The form that [handleStartEdit] fills from a post. *)
Definition form_of_post (post : Post.t) : Form.t :=
  Form.mk (Post.title post) (Post.slug post) (Post.excerpt post)
    (Post.content post) (Post.coverImage post) (Post.category post)
    (Post.author post) (Post.status post) (Post.publishedAt post)
    (Post.seoTitle post) (Post.metaDescription post)
    (Post.focusKeyword post).

(** A row all of whose text columns hold a text that is not empty. *)
Definition filled (x : option jsstring) : Prop :=
  exists s, x = Some s /\ s <> [].

Definition complete_row (r : Row.t) : Prop :=
  filled (Row.title r) /\ filled (Row.slug r) /\ filled (Row.excerpt r) /\
  filled (Row.content r) /\ filled (Row.cover_image r) /\
  filled (Row.category r) /\ filled (Row.author r) /\
  filled (Row.published_at r) /\ filled (Row.seo_title r) /\
  filled (Row.meta_description r) /\ filled (Row.focus_keyword r).

(** ** The overlay, URL by URL *)

(** The seven URLs of the map. *)
Inductive UrlField :=
| HeroCta | HeroPricing | CtaRegister | NavbarLogin | NavbarRegister
| PricingSchedule | DashboardRegister.

Definition get_url (k : UrlField) (v : UrlValues) : jsstring :=
  match k with
  | HeroCta => hero_ctaButton v
  | HeroPricing => hero_pricingButton v
  | CtaRegister => cta_registerButton v
  | NavbarLogin => navbar_loginButton v
  | NavbarRegister => navbar_registerButton v
  | PricingSchedule => pricing_scheduleButton v
  | DashboardRegister => dashboard_registerButton v
  end.

(** The identifier of the group that carries a URL, and the place of the
    URL among the items of the group. *)
Definition group_of (k : UrlField) : jsstring :=
  match k with
  | HeroCta | HeroPricing => js "1"
  | CtaRegister => js "2"
  | NavbarLogin | NavbarRegister => js "3"
  | PricingSchedule => js "4"
  | DashboardRegister => js "5"
  end.

Definition place_of (k : UrlField) : nat :=
  match k with
  | HeroPricing | NavbarRegister => 1
  | _ => 0
  end.

(** The number of items a group must have to be used. *)
Definition items_needed (id : jsstring) : option nat :=
  if bool_decide (id = js "1") then Some 2
  else if bool_decide (id = js "2") then Some 1
  else if bool_decide (id = js "3") then Some 2
  else if bool_decide (id = js "4") then Some 1
  else if bool_decide (id = js "5") then Some 1
  else None.

(** A group is used when its identifier is one of the five and it has the
    items its section needs. *)
Definition usable (group : Urls.t) : bool :=
  match Urls.items group, items_needed (Urls.id group) with
  | Some items, Some n => (n <=? length items)%nat
  | _, _ => false
  end.

(** The URL that a group writes into [k], if it writes one. *)
Definition written (k : UrlField) (group : Urls.t) : option jsstring :=
  if usable group && bool_decide (Urls.id group = group_of k)
  then
    match Urls.items group with
    | Some items => Urls.url <$> items !! place_of k
    | None => None
    end
  else None.

(** The URL that the last writing group of [data] writes into [k]. *)
Definition last_written (k : UrlField) (data : list Urls.t)
    : option jsstring :=
  foldl (fun acc g => match written k g with Some u => Some u | None => acc end)
    None data.

(** * Properties *)

(** ** Slug derivation *)

Lemma replace_space_runs_chars (b : bool) (s : jsstring) :
  Forall (fun c => c = hyphen \/ (In c s /\ is_space c = false))
    (replace_space_runs b s).
Proof.
  revert b; induction s as [|d r IH]; intros b; simpl; [constructor|].
  assert (Hr : forall b', Forall
            (fun c => c = hyphen \/ (In c (d :: r) /\ is_space c = false))
            (replace_space_runs b' r)).
  { intros b'. eapply Forall_impl; [apply IH|].
    simpl. intros c [?|[? ?]]; auto. }
  destruct (is_space d) eqn:Hd.
  - destruct b; [apply Hr|]. constructor; [auto|apply Hr].
  - constructor; [|apply Hr]. right. simpl. auto.
Qed.

Lemma strip_non_word_chars (s : jsstring) (c : code_unit) :
  In c (strip_non_word s) -> In c s /\ (is_word c || is_space c) = true.
Proof. unfold strip_non_word. rewrite List.filter_In. tauto. Qed.


Lemma is_empty_true (s : jsstring) : is_empty s = true <-> s = [].
Proof. destruct s; simpl; split; congruence. Qed.

Lemma is_empty_false (s : jsstring) : is_empty s = false <-> s <> [].
Proof. destruct s; simpl; split; congruence. Qed.

(** C2, as amended: for every title and every lower-casing function, a code
    unit of the derived slug is never white space, and it is a word character
    or a hyphen, the hyphens standing for the runs of white space. *)
Theorem generateSlug_word_or_hyphen (toLowerCase : jsstring -> jsstring)
    (title : jsstring) :
  Forall (fun c => is_space c = false /\ (is_word c = true \/ c = hyphen))
    (generateSlug toLowerCase title).
Proof.
  unfold generateSlug.
  eapply Forall_impl; [apply replace_space_runs_chars|].
  simpl. intros c [->|[Hin Hsp]].
  - split; [reflexivity|auto].
  - split; [exact Hsp|]. left.
    apply strip_non_word_chars in Hin as [_ H].
    rewrite Hsp, orb_false_r in H. exact H.
Qed.

(** C2, as stated, fails: the slug of the title "a b" is "a-b", and the
    hyphen is not a word character. *)
Lemma generateSlug_hyphen_not_word :
  generateSlug toLowerCase_latin1 (js "a b") = js "a-b" /\
  ~ Forall (fun c => is_word c = true /\ is_space c = false)
      (generateSlug toLowerCase_latin1 (js "a b")).
Proof.
  split; [reflexivity|].
  intros H. rewrite List.Forall_forall in H.
  destruct (H hyphen) as [Hw _]; [|discriminate Hw].
  vm_compute. right. left. reflexivity.
Qed.

(** The derivation on two titles: punctuation and accented letters are
    deleted, runs of spaces become one hyphen, the underscore is kept. *)
Example generateSlug_examples :
  generateSlug toLowerCase_latin1 (js "Hello, World!  Foo_Bar 2")
  = js "hello-world-foo_bar-2" /\
  generateSlug toLowerCase_latin1 (js " Tips & Trik ") = js "-tips-trik-" /\
  generateSlug toLowerCase_latin1 [67; 65; 70; 201]%N = js "caf".
Proof. repeat split; reflexivity. Qed.

(** ** Saving a post *)

Lemma with_slug_same (f : Form.t) : Form.with_slug (Form.slug f) f = f.
Proof. destruct f; reflexivity. Qed.

Lemma finalSlug_nonempty (toLowerCase : jsstring -> jsstring)
    (slug title : jsstring) :
  slug <> [] -> finalSlug toLowerCase slug title = slug.
Proof. intros H. unfold finalSlug. apply is_empty_false in H. by rewrite H. Qed.

Lemma finalSlug_empty (toLowerCase : jsstring -> jsstring)
    (title : jsstring) :
  finalSlug toLowerCase [] title = generateSlug toLowerCase title.
Proof. reflexivity. Qed.

(** A create whose form passes the validation issues one insert of the form
    with the final slug. *)
Lemma handleCreatePost_requests (toLowerCase : jsstring -> jsstring)
    (env : Env) (w : World) :
  Form.title (formData (view w)) <> [] ->
  Form.content (formData (view w)) <> [] ->
  requests (exec (handleCreatePost toLowerCase env) w) =
  ReqInsert
    (create_values env
       (Form.with_slug
          (finalSlug toLowerCase (Form.slug (formData (view w)))
             (Form.title (formData (view w))))
          (formData (view w))))
  :: requests w.
Proof.
  intros Ht Hc. apply is_empty_false in Ht, Hc.
  unfold exec, handleCreatePost, bind, get_view. simpl.
  rewrite Ht, Hc. simpl.
  unfold createPostMutation, useMutation, bind, supabase, throw_if_error.
  destruct (fault env); reflexivity.
Qed.

(** An update whose form passes the validation issues one update of the post
    being edited, with the final slug. *)
Lemma handleUpdatePost_requests (toLowerCase : jsstring -> jsstring)
    (env : Env) (w : World) (id : jsstring) :
  isEditing (view w) = Some id -> id <> [] ->
  Form.title (formData (view w)) <> [] ->
  Form.content (formData (view w)) <> [] ->
  requests (exec (handleUpdatePost toLowerCase env) w) =
  ReqUpdate
    (update_values env
       (Form.with_slug
          (finalSlug toLowerCase (Form.slug (formData (view w)))
             (Form.title (formData (view w))))
          (formData (view w))))
    id
  :: requests w.
Proof.
  intros He Hid Ht Hc. apply is_empty_false in Hid, Ht, Hc.
  unfold exec, handleUpdatePost, bind, get_view. simpl.
  rewrite He, Hid, Ht, Hc. simpl.
  unfold updatePostMutation, useMutation, bind, supabase, throw_if_error.
  destruct (fault env); reflexivity.
Qed.

(** C3: a save whose form has an empty title or an empty content does
    nothing but show the validation notification: the create handler, and the
    update handler while a post is being edited, leave the world as it was
    with that one notification added, so no network call is issued and the
    table and the view state are untouched. *)
Theorem save_rejected_without_title_or_content
    (toLowerCase : jsstring -> jsstring) (env : Env) (w : World) :
  Form.title (formData (view w)) = [] \/
  Form.content (formData (view w)) = [] ->
  handleCreatePost toLowerCase env w = toast validation_toast w /\
  (forall id, isEditing (view w) = Some id -> id <> [] ->
     handleUpdatePost toLowerCase env w = toast validation_toast w) /\
  requests (exec (handleCreatePost toLowerCase env) w) = requests w /\
  requests (exec (handleUpdatePost toLowerCase env) w) = requests w /\
  view (exec (handleCreatePost toLowerCase env) w) = view w /\
  view (exec (handleUpdatePost toLowerCase env) w) = view w /\
  blog_posts (exec (handleCreatePost toLowerCase env) w) = blog_posts w /\
  blog_posts (exec (handleUpdatePost toLowerCase env) w) = blog_posts w.
Proof.
  intros H.
  assert (Hv : is_empty (Form.title (formData (view w)))
               || is_empty (Form.content (formData (view w))) = true).
  { destruct H as [H|H]; rewrite H; simpl; [reflexivity|apply orb_true_r]. }
  assert (Hc : handleCreatePost toLowerCase env w = toast validation_toast w).
  { unfold handleCreatePost, bind, get_view. simpl. by rewrite Hv. }
  assert (Hu : handleUpdatePost toLowerCase env w = toast validation_toast w
               \/ handleUpdatePost toLowerCase env w = (inr tt, w)).
  { unfold handleUpdatePost, bind, get_view, ret. simpl.
    destruct (isEditing (view w)) as [id|]; [|by right].
    destruct (is_empty id); [by right|]. rewrite Hv. by left. }
  split; [exact Hc|]. split.
  - intros id He Hid. apply is_empty_false in Hid.
    unfold handleUpdatePost, bind, get_view. simpl.
    by rewrite He, Hid, Hv.
  - unfold exec. rewrite Hc.
    destruct Hu as [-> | ->]; simpl; auto 10.
Qed.

Lemma save_rejected_without_title_or_content_witness :
  let w := world_with false (Some (js "p2"))
             (form_with "" "dua" "<p>isi</p>" draft "") in
  handleCreatePost toLowerCase_latin1 env_ok w = toast validation_toast w /\
  handleUpdatePost toLowerCase_latin1 env_ok w = toast validation_toast w /\
  requests (exec (handleUpdatePost toLowerCase_latin1 env_ok) w) = [].
Proof.
  intros w.
  destruct (save_rejected_without_title_or_content toLowerCase_latin1 env_ok w)
    as (Hc & Hu & _ & Hr & _).
  - left. reflexivity.
  - split; [exact Hc|]. split; [|exact Hr].
    apply (Hu (js "p2")); [reflexivity|discriminate].
Defined.

(** C8: when the slug of the form is not empty, a save that passes the
    validation writes that slug as it is: the final slug is the supplied
    one, the insert of a create and the update of an edit carry the form
    with its own slug, and the derivation is what the final slug is only
    for an empty slug. *)
Theorem supplied_slug_written_verbatim (toLowerCase : jsstring -> jsstring)
    (env : Env) (w : World) :
  Form.slug (formData (view w)) <> [] ->
  Form.title (formData (view w)) <> [] ->
  Form.content (formData (view w)) <> [] ->
  finalSlug toLowerCase (Form.slug (formData (view w)))
    (Form.title (formData (view w))) = Form.slug (formData (view w)) /\
  (forall title, finalSlug toLowerCase [] title
                 = generateSlug toLowerCase title) /\
  (exists v,
     requests (exec (handleCreatePost toLowerCase env) w)
     = ReqInsert v :: requests w /\
     v = create_values env (formData (view w)) /\
     Cols.slug v = Form.slug (formData (view w))) /\
  (forall id, isEditing (view w) = Some id -> id <> [] ->
     exists v,
       requests (exec (handleUpdatePost toLowerCase env) w)
       = ReqUpdate v id :: requests w /\
       v = update_values env (formData (view w)) /\
       Cols.slug v = Form.slug (formData (view w))).
Proof.
  intros Hs Ht Hc.
  pose proof (finalSlug_nonempty toLowerCase _
                (Form.title (formData (view w))) Hs) as Hf.
  split; [exact Hf|]. split; [intros; reflexivity|]. split.
  - eexists. split; [apply handleCreatePost_requests; assumption|].
    rewrite Hf, with_slug_same. split; reflexivity.
  - intros id He Hid. eexists.
    split; [apply handleUpdatePost_requests; assumption|].
    rewrite Hf, with_slug_same. split; reflexivity.
Qed.

Lemma supplied_slug_written_verbatim_witness :
  let w := world_with false (Some (js "p2"))
             (form_with "Dua Hal!" "Slug_Saya 2" "<p>isi</p>" draft "") in
  exists v,
    requests (exec (handleUpdatePost toLowerCase_latin1 env_ok) w)
    = [ReqUpdate v (js "p2")] /\
    Cols.slug v = js "Slug_Saya 2".
Proof.
  intros w.
  destruct (supplied_slug_written_verbatim toLowerCase_latin1 env_ok w)
    as (_ & _ & _ & Hu); [discriminate..|].
  destruct (Hu (js "p2")) as (v & Hr & _ & Hv); [reflexivity|discriminate|].
  exists v. split; [exact Hr|exact Hv].
Defined.




(** ** Mutations *)

Lemma updatePostMutation_requests (env : Env) (id : jsstring) (f : Form.t)
    (w : World) :
  requests (exec (updatePostMutation env (id, f)) w)
  = ReqUpdate (update_values env f) id :: requests w.
Proof.
  unfold exec, updatePostMutation, useMutation, bind, supabase,
    throw_if_error.
  simpl. destruct (fault env); reflexivity.
Qed.

(** C4: the update mutation issues one update of the post, whose
    [published_at] is the current time when the form's status is published
    and its publish time is empty, and is the form's publish time as it is
    when that time is not empty or the status is not published. *)
Theorem update_published_at (env : Env) (id : jsstring) (f : Form.t)
    (w : World) :
  requests (exec (updatePostMutation env (id, f)) w)
  = ReqUpdate (update_values env f) id :: requests w /\
  (Form.status f = published -> Form.publishedAt f = [] ->
   Cols.published_at (update_values env f) = now env) /\
  (Form.publishedAt f <> [] \/ Form.status f <> published ->
   Cols.published_at (update_values env f) = Form.publishedAt f).
Proof.
  split; [apply updatePostMutation_requests|]. split.
  - intros Hs Hp. simpl. rewrite Hs, Hp. reflexivity.
  - intros H. simpl.
    destruct H as [H|H].
    + apply is_empty_false in H. rewrite H, andb_false_r. reflexivity.
    + rewrite bool_decide_eq_false_2 by exact H. reflexivity.
Qed.

Lemma update_published_at_witness :
  Cols.published_at
    (update_values env_ok (form_with "Dua" "dua" "<p>isi</p>" published ""))
  = example_time /\
  Cols.published_at
    (update_values env_ok
       (form_with "Dua" "dua" "<p>isi</p>" published
          "2024-02-01T09:00:00.000Z"))
  = js "2024-02-01T09:00:00.000Z" /\
  Cols.published_at
    (update_values env_ok (form_with "Dua" "dua" "<p>isi</p>" draft ""))
  = [].
Proof.
  split; [|split].
  - apply (update_published_at env_ok (js "p2")
             (form_with "Dua" "dua" "<p>isi</p>" published "")
             (world_with false (Some (js "p2"))
                (form_with "Dua" "dua" "<p>isi</p>" published "")));
      reflexivity.
  - apply (update_published_at env_ok (js "p2")
             (form_with "Dua" "dua" "<p>isi</p>" published
                "2024-02-01T09:00:00.000Z")
             (world_with false (Some (js "p2"))
                (form_with "Dua" "dua" "<p>isi</p>" published
                   "2024-02-01T09:00:00.000Z")));
      left; discriminate.
  - apply (update_published_at env_ok (js "p2")
             (form_with "Dua" "dua" "<p>isi</p>" draft "")
             (world_with false (Some (js "p2"))
                (form_with "Dua" "dua" "<p>isi</p>" draft "")));
      right; discriminate.
Defined.

(** C7: when the backend fails a create, an update, a delete or a publish,
    the mutation leaves the world as it was but for the logged call and the
    error notification; so [isCreating], [isEditing] and the form data
    keep their values, also through the four handlers. *)
Theorem failed_mutation_keeps_view (toLowerCase : jsstring -> jsstring)
    (env : Env) (e : Error) (w : World) :
  fault env = Some e ->
  (forall f, createPostMutation env f w
             = (inr tt, after_failure (ReqInsert (create_values env f)) e w))
  /\
  (forall id f, updatePostMutation env (id, f) w
                = (inr tt,
                   after_failure (ReqUpdate (update_values env f) id) e w)) /\
  (forall id, deletePostMutation env id w
              = (inr tt, after_failure (ReqDelete id) e w)) /\
  (forall id, publishPostMutation env id w
              = (inr tt,
                 after_failure (ReqPublish published (now env) id) e w)) /\
  view (exec (handleCreatePost toLowerCase env) w) = view w /\
  view (exec (handleUpdatePost toLowerCase env) w) = view w /\
  (forall id, view (exec (handleDeletePost env id) w) = view w) /\
  (forall id, view (exec (handlePublishPost env id) w) = view w).
Proof.
  intros Hf.
  assert (Hc : forall f, createPostMutation env f w
             = (inr tt, after_failure (ReqInsert (create_values env f)) e w)).
  { intros f.
    unfold createPostMutation, useMutation, bind, supabase, throw_if_error.
    rewrite Hf. reflexivity. }
  assert (Hu : forall id f, updatePostMutation env (id, f) w
             = (inr tt,
                after_failure (ReqUpdate (update_values env f) id) e w)).
  { intros id f.
    unfold updatePostMutation, useMutation, bind, supabase, throw_if_error.
    rewrite Hf. reflexivity. }
  assert (Hd : forall id, deletePostMutation env id w
             = (inr tt, after_failure (ReqDelete id) e w)).
  { intros id.
    unfold deletePostMutation, useMutation, bind, supabase, throw_if_error.
    rewrite Hf. reflexivity. }
  assert (Hp : forall id, publishPostMutation env id w
             = (inr tt,
                after_failure (ReqPublish published (now env) id) e w)).
  { intros id.
    unfold publishPostMutation, useMutation, bind, supabase, throw_if_error.
    rewrite Hf. reflexivity. }
  repeat split; try assumption.
  - unfold exec, handleCreatePost, bind, get_view. simpl.
    destruct (_ || _); [reflexivity|]. by rewrite Hc.
  - unfold exec, handleUpdatePost, bind, get_view, ret. simpl.
    destruct (isEditing (view w)) as [id|]; [|reflexivity].
    destruct (is_empty id); [reflexivity|].
    destruct (_ || _); [reflexivity|]. by rewrite Hu.
  - intros id. unfold exec, handleDeletePost, ret.
    destruct (confirm env); [|reflexivity]. by rewrite Hd.
  - intros id. unfold exec, handlePublishPost. by rewrite Hp.
Qed.

Lemma failed_mutation_keeps_view_witness :
  let f := form_with "Halo Dunia" "" "<p>isi</p>" draft "" in
  let w := world_with true None f in
  view (exec (handleCreatePost toLowerCase_latin1 env_fail) w)
  = mkView true None f /\
  toasts (exec (createPostMutation env_fail f) w)
  = [error_toast example_error].
Proof.
  intros f w.
  destruct (failed_mutation_keeps_view toLowerCase_latin1 env_fail
              example_error w) as (Hc & _ & _ & _ & Hv & _);
    [reflexivity|].
  split; [exact Hv|]. unfold exec. rewrite Hc. reflexivity.
Defined.

(** ** Publishing and deleting *)

Lemma db_update_In (f : Row.t -> Row.t) (id : jsstring) (t : list Row.t)
    (r' : Row.t) :
  In r' (db_update f id t) <->
  exists r, In r t /\ r' = (if bool_decide (Row.id r = id) then f r else r).
Proof.
  unfold db_update. rewrite List.in_map_iff.
  split; intros (r & H1 & H2); exists r; auto.
Qed.





(** The same draft saved as published from the edit form keeps its publish
    time: the test of an empty publish time is in the update only. *)
Example update_keeps_publish_time :
  let f := form_with "Dua" "p2" "<p>isi</p>" published
             "2024-02-01T09:00:00.000Z" in
  map Row.published_at
    (blog_posts
       (exec (updatePostMutation env_ok (js "p2", f))
          (world_with false (Some (js "p2")) f)))
  = [ Some (js "2024-01-05T10:00:00.000Z");
      Some (js "2024-02-01T09:00:00.000Z");
      None ].
Proof. reflexivity. Qed.

Lemma insert_desc_In (x r : Row.t) (l : list Row.t) :
  In x (insert_desc r l) <-> x = r \/ In x l.
Proof.
  induction l as [|y l IH]; simpl.
  - intuition.
  - destruct (_ <? _)%N; simpl; [intuition|]. rewrite IH. intuition.
Qed.

Lemma order_desc_In (x : Row.t) (t : list Row.t) :
  In x (order_desc t) <-> In x t.
Proof.
  induction t as [|r t IH]; simpl; [tauto|].
  rewrite insert_desc_In, IH. intuition.
Qed.

Lemma db_delete_In (id : jsstring) (t : list Row.t) (r : Row.t) :
  In r (db_delete id t) <-> In r t /\ Row.id r <> id.
Proof.
  unfold db_delete. rewrite List.filter_In, negb_true_iff, bool_decide_eq_false.
  tauto.
Qed.

(** C10: after a delete that the user confirms and the backend accepts, the
    list query returns, and the list it returns, whether the query itself
    succeeds or fails, has no post with the deleted identifier; when the
    query succeeds the posts with another identifier are still listed. *)
Theorem deleted_post_not_fetched (toLocaleDateString : N -> jsstring)
    (env env' : Env) (id : jsstring) (w : World) :
  confirm env = true -> fault env = None ->
  blog_posts (exec (handleDeletePost env id) w)
  = db_delete id (blog_posts w) /\
  exists posts w',
    blogPostsQuery toLocaleDateString env'
      (exec (handleDeletePost env id) w) = (inr posts, w') /\
    Forall (fun p => Post.id p <> id) posts /\
    (fault env' = None ->
     forall r, In r (blog_posts w) -> Row.id r <> id ->
       In (to_post toLocaleDateString r) posts).
Proof.
  intros Hc Hf.
  assert (Ht : blog_posts (exec (handleDeletePost env id) w)
               = db_delete id (blog_posts w)).
  { unfold exec, handleDeletePost. rewrite Hc.
    unfold deletePostMutation, useMutation, bind, supabase, throw_if_error.
    rewrite Hf. reflexivity. }
  split; [exact Ht|].
  set (w1 := exec (handleDeletePost env id) w) in *.
  unfold blogPostsQuery, supabase_select, bind, supabase, ret, toast.
  destruct (fault env') as [e|]; simpl.
  - eexists _, _. split; [reflexivity|]. split; [constructor|discriminate].
  - eexists _, _. split; [reflexivity|]. rewrite Ht. split.
    + apply Forall_map. apply List.Forall_forall.
      intros r Hin. simpl.
      apply order_desc_In, db_delete_In in Hin. tauto.
    + intros _ r Hin Hid. apply List.in_map.
      apply order_desc_In, db_delete_In. auto.
Qed.

Lemma deleted_post_not_fetched_witness :
  exists w',
    blogPostsQuery (fun _ => js "5 Januari 2024") env_ok
      (exec (handleDeletePost env_ok (js "p2"))
         (world_with false None defaultBlogPostFormData))
    = (inr (map (to_post (fun _ => js "5 Januari 2024"))
              [ row_with "p3" "Tiga" draft None 200;
                row_with "p1" "Satu" published
                  (Some (js "2024-01-05T10:00:00.000Z")) 100 ]), w').
Proof.
  destruct (deleted_post_not_fetched (fun _ => js "5 Januari 2024")
              env_ok env_ok (js "p2")
              (world_with false None defaultBlogPostFormData))
    as (_ & posts & w' & Hq & _); [reflexivity|reflexivity|].
  exists w'. rewrite Hq. f_equal. f_equal.
  apply (f_equal fst) in Hq. simpl in Hq.
  injection Hq as <-. reflexivity.
Defined.

(** ** The URL map: reading through shared section objects *)

Lemma spread_same_sections (u : UrlMap) : spread u = u.
Proof. destruct u; reflexivity. Qed.

Lemma get_field_assign_same (h : heap) (l : loc) (f : string) (v : jsstring) :
  is_Some (h !! l) -> get_field (assign l f v h) l f = Some v.
Proof.
  intros [o Ho]. unfold get_field, assign.
  rewrite lookup_alter_eq, Ho. simpl. apply lookup_insert_eq.
Qed.

Lemma get_field_assign_other (h : heap) (l l' : loc) (f f' : string)
    (v : jsstring) :
  l <> l' \/ f <> f' ->
  get_field (assign l f v h) l' f' = get_field h l' f'.
Proof.
  intros H. unfold get_field, assign.
  destruct (decide (l = l')) as [<-|Hl].
  - destruct H as [H|H]; [done|].
    rewrite lookup_alter_eq. destruct (h !! l); simpl; [|done].
    by rewrite lookup_insert_ne.
  - by rewrite lookup_alter_ne.
Qed.

Lemma assign_is_Some (h : heap) (l l' : loc) (f : string) (v : jsstring) :
  is_Some (h !! l') -> is_Some (assign l f v h !! l').
Proof.
  intros [o Ho]. unfold assign.
  destruct (decide (l = l')) as [<-|Hl].
  - rewrite lookup_alter_eq, Ho. simpl. eauto.
  - rewrite lookup_alter_ne, Ho by done. eauto.
Qed.

Lemma get_field_is_Some (h : heap) (l : loc) (f : string) (v : jsstring) :
  get_field h l f = Some v -> is_Some (h !! l).
Proof. unfold get_field. destruct (h !! l); [eauto|discriminate]. Qed.

Lemma read_Some (h : heap) (u : UrlMap) (v : UrlValues) :
  read h u = Some v <->
  get_field h (hero u) "ctaButton" = Some (hero_ctaButton v) /\
  get_field h (hero u) "pricingButton" = Some (hero_pricingButton v) /\
  get_field h (cta u) "registerButton" = Some (cta_registerButton v) /\
  get_field h (navbar u) "loginButton" = Some (navbar_loginButton v) /\
  get_field h (navbar u) "registerButton" = Some (navbar_registerButton v) /\
  get_field h (pricing u) "scheduleButton" = Some (pricing_scheduleButton v) /\
  get_field h (dashboard u) "registerButton"
  = Some (dashboard_registerButton v).
Proof.
  unfold read. split.
  - repeat (destruct (get_field _ _ _); [|discriminate]).
    intros [= <-]. simpl. auto 10.
  - intros (-> & -> & -> & -> & -> & -> & ->). by destruct v.
Qed.

Lemma read_heap0 : read heap0 defaultUrls = Some default_values.
Proof. vm_compute. reflexivity. Qed.

(** Rewrites the reads of a heap after assignments to section objects. *)
Ltac read_after_assign :=
  repeat first
    [ rewrite get_field_assign_same
        by (repeat apply assign_is_Some; eapply get_field_is_Some; eassumption)
    | rewrite get_field_assign_other by (first [left; discriminate
                                               | right; discriminate]) ].

(** Splits on the identifier tests of a group; two different identifiers
    for one group are absurd. *)
Ltac case_group_id :=
  repeat case_bool_decide;
  try match goal with
      | H1 : Urls.id ?g = ?a, H2 : Urls.id ?g = ?b |- _ =>
          exfalso; rewrite H1 in H2; vm_compute in H2; discriminate H2
      end;
  try contradiction.

Lemma overlay_group_read (h : heap) (v : UrlValues) (group : Urls.t) :
  read h defaultUrls = Some v ->
  read (overlay_group (spread defaultUrls) group h) defaultUrls
  = Some (overlay_values_group v group).
Proof.
  intros Hr. pose proof Hr as Hr'.
  apply read_Some in Hr as (H1 & H2 & H3 & H4 & H5 & H6 & H7).
  cbn [hero cta navbar pricing dashboard defaultUrls]
    in H1, H2, H3, H4, H5, H6, H7.
  unfold overlay_group, overlay_values_group.
  destruct (Urls.items group) as [[|i0 [|i1 rest]]|];
    cbn [length Nat.leb andb]; rewrite ?andb_false_r, ?andb_true_r;
    case_group_id; cbn [andb]; try assumption; apply read_Some;
    cbn [hero cta navbar pricing dashboard defaultUrls spread
         hero_ctaButton hero_pricingButton cta_registerButton
         navbar_loginButton navbar_registerButton pricing_scheduleButton
         dashboard_registerButton];
    read_after_assign; auto 10.
Qed.

Lemma overlay_read (data : list Urls.t) (h : heap) (v : UrlValues) :
  read h defaultUrls = Some v ->
  read (foldl (fun h g => overlay_group (spread defaultUrls) g h) h data)
    defaultUrls
  = Some (overlay_values v data).
Proof.
  revert h v. induction data as [|g data IH]; intros h v Hr; simpl.
  - exact Hr.
  - apply IH. by apply overlay_group_read.
Qed.

Lemma mapUrlsToState_spec (data : list Urls.t) (p : Page) :
  mapUrlsToState data p
  = (inr tt,
     mkPage
       (foldl (fun h g => overlay_group (spread defaultUrls) g h)
          (page_heap p) data)
       (mkHook defaultUrls (loading (hook p)) (error (hook p)))
       (urlData p)).
Proof. reflexivity. Qed.

(** ** The URL map after a fetch *)

(** C6: the overlay writes through the section objects that the copy
    shares with [defaultUrls].  After [mapUrlsToState], reading through
    [defaultUrls] gives the overlaid values, the same as reading through the
    new [urls]; so the defaults no longer read as before whenever the
    overlay changed a value, and a later use of the hook whose fetch fails
    with nothing cached falls back to the overlaid values. *)
Theorem overlay_mutates_defaults
    (JSON_parse : jsstring -> Error + list Urls.t) (data : list Urls.t)
    (p : Page) (v0 : UrlValues) :
  read (page_heap p) defaultUrls = Some v0 ->
  hero (spread defaultUrls) = hero defaultUrls /\
  read (page_heap (exec (mapUrlsToState data) p)) defaultUrls
  = Some (overlay_values v0 data) /\
  read (page_heap (exec (mapUrlsToState data) p))
    (urls (hook (exec (mapUrlsToState data) p)))
  = Some (overlay_values v0 data) /\
  (overlay_values v0 data <> v0 ->
   read (page_heap (exec (mapUrlsToState data) p)) defaultUrls <> Some v0) /\
  (forall e d,
     let later :=
       exec (fetchUrls JSON_parse (Resolved d (Some e)))
         (mkPage (page_heap (exec (mapUrlsToState data) p)) initial_hook None)
     in
     urls (hook later) = defaultUrls /\
     read (page_heap later) (urls (hook later))
     = Some (overlay_values v0 data)).
Proof.
  intros Hr. unfold exec. rewrite mapUrlsToState_spec. simpl.
  pose proof (overlay_read data _ _ Hr) as Ho.
  split; [reflexivity|]. split; [exact Ho|]. split; [exact Ho|]. split.
  - intros Hne Heq. rewrite Ho in Heq. congruence.
  - intros e d. split; [reflexivity|exact Ho].
Qed.

Lemma overlay_mutates_defaults_witness :
  read (page_heap (exec (mapUrlsToState example_groups) fresh_page))
    defaultUrls = Some example_overlaid /\
  read (page_heap (exec (mapUrlsToState example_groups) fresh_page))
    defaultUrls <> Some default_values /\
  read
    (page_heap
       (exec (fetchUrls example_parse (Resolved None (Some example_error)))
          (mkPage
             (page_heap (exec (mapUrlsToState example_groups) fresh_page))
             initial_hook None)))
    defaultUrls = Some example_overlaid.
Proof.
  destruct (overlay_mutates_defaults example_parse example_groups fresh_page
              default_values read_heap0) as (_ & H1 & _ & H2 & H3).
  split; [exact H1|]. split.
  - apply H2. vm_compute. discriminate.
  - destruct (H3 example_error None) as [Hu Hr].
    rewrite Hu in Hr. exact Hr.
Defined.



(** * Further properties of [BlogManagement] *)

(** ** Accepted mutations *)

Lemma createPostMutation_ok (env : Env) (f : Form.t) (w : World) :
  fault env = None ->
  createPostMutation env f w
  = (inr tt,
     mkWorld
       (mkView false (isEditing (view w))
          (Form.with_category
             (match categories w with c :: _ => c | [] => [] end)
             defaultBlogPostFormData))
       (categories w)
       (db_insert (new_id env) (new_created_at env) (create_values env f)
          (blog_posts w))
       (mkToast default (js "Artikel berhasil dibuat")
          (js "Artikel " ++ [quote] ++ Form.title (formData (view w))
           ++ [quote] ++ js " telah berhasil dibuat") :: toasts w)
       (ReqInsert (create_values env f) :: requests w)
       (blog_posts_key :: invalidated w)).
Proof.
  intros Hf.
  unfold createPostMutation, useMutation, bind, supabase, throw_if_error.
  rewrite Hf. reflexivity.
Qed.

Lemma updatePostMutation_ok (env : Env) (id : jsstring) (f : Form.t)
    (w : World) :
  fault env = None ->
  updatePostMutation env (id, f) w
  = (inr tt,
     mkWorld
       (mkView (isCreating (view w)) None (formData (view w)))
       (categories w)
       (db_update (set_cols (update_values env f)) id (blog_posts w))
       (mkToast default (js "Artikel berhasil diperbarui")
          (js "Artikel " ++ [quote] ++ Form.title (formData (view w))
           ++ [quote] ++ js " telah berhasil diperbarui") :: toasts w)
       (ReqUpdate (update_values env f) id :: requests w)
       (blog_posts_key :: invalidated w)).
Proof.
  intros Hf.
  unfold updatePostMutation, useMutation, bind, supabase, throw_if_error.
  rewrite Hf. reflexivity.
Qed.

Lemma deletePostMutation_ok (env : Env) (id : jsstring) (w : World) :
  fault env = None ->
  deletePostMutation env id w
  = (inr tt,
     mkWorld (view w) (categories w) (db_delete id (blog_posts w))
       (mkToast default (js "Artikel berhasil dihapus")
          (js "Artikel telah berhasil dihapus") :: toasts w)
       (ReqDelete id :: requests w)
       (blog_posts_key :: invalidated w)).
Proof.
  intros Hf.
  unfold deletePostMutation, useMutation, bind, supabase, throw_if_error.
  rewrite Hf. reflexivity.
Qed.

Lemma publishPostMutation_accepted (env : Env) (id : jsstring) (w : World) :
  fault env = None ->
  publishPostMutation env id w
  = (inr tt,
     mkWorld (view w) (categories w)
       (db_update (set_status published (now env)) id (blog_posts w))
       (mkToast default (js "Artikel berhasil dipublikasikan")
          (js "Artikel telah berhasil dipublikasikan") :: toasts w)
       (ReqPublish published (now env) id :: requests w)
       (blog_posts_key :: invalidated w)).
Proof.
  intros Hf.
  unfold publishPostMutation, useMutation, bind, supabase, throw_if_error.
  rewrite Hf. reflexivity.
Qed.

Lemma handleCreatePost_valid (toLowerCase : jsstring -> jsstring)
    (env : Env) (w : World) :
  Form.title (formData (view w)) <> [] ->
  Form.content (formData (view w)) <> [] ->
  handleCreatePost toLowerCase env w
  = createPostMutation env
      (Form.with_slug
         (finalSlug toLowerCase (Form.slug (formData (view w)))
            (Form.title (formData (view w))))
         (formData (view w))) w.
Proof.
  intros Ht Hc. apply is_empty_false in Ht, Hc.
  unfold handleCreatePost, bind, get_view. simpl. by rewrite Ht, Hc.
Qed.

Lemma handleUpdatePost_valid (toLowerCase : jsstring -> jsstring)
    (env : Env) (w : World) (id : jsstring) :
  isEditing (view w) = Some id -> id <> [] ->
  Form.title (formData (view w)) <> [] ->
  Form.content (formData (view w)) <> [] ->
  handleUpdatePost toLowerCase env w
  = updatePostMutation env
      (id,
       Form.with_slug
         (finalSlug toLowerCase (Form.slug (formData (view w)))
            (Form.title (formData (view w))))
         (formData (view w))) w.
Proof.
  intros He Hid Ht Hc. apply is_empty_false in Hid, Ht, Hc.
  unfold handleUpdatePost, bind, get_view. simpl.
  by rewrite He, Hid, Ht, Hc.
Qed.

(** X1: a create that passes the validation writes the current time as
    publish time whenever the status is published, also when the form
    holds a publish time, and writes the form's publish time as it is for a
    draft or a scheduled post. *)
Theorem create_published_at (toLowerCase : jsstring -> jsstring)
    (env : Env) (w : World) :
  Form.title (formData (view w)) <> [] ->
  Form.content (formData (view w)) <> [] ->
  exists v,
    requests (exec (handleCreatePost toLowerCase env) w)
    = ReqInsert v :: requests w /\
    Cols.status v = Form.status (formData (view w)) /\
    (Form.status (formData (view w)) = published ->
     Cols.published_at v = now env) /\
    (Form.status (formData (view w)) <> published ->
     Cols.published_at v = Form.publishedAt (formData (view w))).
Proof.
  intros Ht Hc. eexists. split; [by apply handleCreatePost_requests|].
  simpl. split; [reflexivity|]. split; intros Hs.
  - by rewrite Hs.
  - by rewrite bool_decide_eq_false_2.
Qed.

Lemma create_published_at_witness :
  let w := world_with true None
             (form_with "Dua" "dua" "<p>isi</p>" published
                "2024-02-01T09:00:00.000Z") in
  exists v,
    requests (exec (handleCreatePost toLowerCase_latin1 env_ok) w)
    = [ReqInsert v] /\
    Cols.published_at v = example_time.
Proof.
  intros w.
  destruct (create_published_at toLowerCase_latin1 env_ok w)
    as (v & Hr & _ & Hp & _); [discriminate..|].
  exists v. split; [exact Hr|]. apply Hp. reflexivity.
Defined.

(** X2: a create that passes the validation and that the backend accepts
    closes the create form and resets the form data to the defaults, with
    the first category of the list, or the empty category when there is
    none; it leaves [isEditing] as it was, invalidates the list query once
    and shows one notification. *)
Theorem create_accepted_resets_form (toLowerCase : jsstring -> jsstring)
    (env : Env) (w : World) :
  Form.title (formData (view w)) <> [] ->
  Form.content (formData (view w)) <> [] ->
  fault env = None ->
  let w' := exec (handleCreatePost toLowerCase env) w in
  isCreating (view w') = false /\
  isEditing (view w') = isEditing (view w) /\
  formData (view w')
  = Form.with_category (hd [] (categories w)) defaultBlogPostFormData /\
  invalidated w' = blog_posts_key :: invalidated w /\
  length (toasts w') = S (length (toasts w)) /\
  (isEditing (view w) = None -> screen false (view w') = PostList).
Proof.
  intros Ht Hc Hf w'. subst w'. unfold exec.
  rewrite handleCreatePost_valid, createPostMutation_ok by assumption.
  simpl. repeat split.
  intros He. by rewrite He.
Qed.

Lemma create_accepted_resets_form_witness :
  view (exec (handleCreatePost toLowerCase_latin1 env_ok)
          (world_with true None (form_with "Dua" "" "<p>isi</p>" draft "")))
  = mkView false None
      (Form.mk [] [] [] [] [] (js "Tips") (js "Admin") draft [] [] [] []).
Proof.
  destruct (create_accepted_resets_form toLowerCase_latin1 env_ok
              (world_with true None (form_with "Dua" "" "<p>isi</p>" draft "")))
    as (H1 & H2 & H3 & _); [discriminate|discriminate|reflexivity|].
  destruct (view _) as [c e f]. simpl in H1, H2, H3.
  rewrite H1, H2, H3. reflexivity.
Defined.

(** X3: an update that passes the validation and that the backend accepts
    closes the edit form and changes nothing else of the view: the form
    data stay as they were typed, and [isCreating] is kept. *)
Theorem update_accepted_keeps_form (toLowerCase : jsstring -> jsstring)
    (env : Env) (w : World) (id : jsstring) :
  isEditing (view w) = Some id -> id <> [] ->
  Form.title (formData (view w)) <> [] ->
  Form.content (formData (view w)) <> [] ->
  fault env = None ->
  let w' := exec (handleUpdatePost toLowerCase env) w in
  view w' = mkView (isCreating (view w)) None (formData (view w)) /\
  invalidated w' = blog_posts_key :: invalidated w /\
  length (toasts w') = S (length (toasts w)) /\
  (isCreating (view w) = false -> screen false (view w') = PostList).
Proof.
  intros He Hid Ht Hc Hf w'. subst w'. unfold exec.
  rewrite (handleUpdatePost_valid _ _ _ id), updatePostMutation_ok
    by assumption.
  simpl. repeat split.
  intros Hcr. unfold screen. simpl. by rewrite Hcr.
Qed.

Lemma update_accepted_keeps_form_witness :
  let f := form_with "Dua" "dua" "<p>isi</p>" draft "" in
  view (exec (handleUpdatePost toLowerCase_latin1 env_ok)
          (world_with false (Some (js "p2")) f))
  = mkView false None f.
Proof.
  intros f.
  destruct (update_accepted_keeps_form toLowerCase_latin1 env_ok
              (world_with false (Some (js "p2")) f) (js "p2"))
    as (H & _); [reflexivity|discriminate|discriminate|discriminate
                |reflexivity|].
  exact H.
Defined.

(** ** How the handlers end *)

Lemma mutation_failed (env : Env) (e : Error) (w : World) :
  fault env = Some e ->
  (forall f, createPostMutation env f w
             = (inr tt, after_failure (ReqInsert (create_values env f)) e w))
  /\
  (forall id f, updatePostMutation env (id, f) w
                = (inr tt,
                   after_failure (ReqUpdate (update_values env f) id) e w)) /\
  (forall id, deletePostMutation env id w
              = (inr tt, after_failure (ReqDelete id) e w)) /\
  (forall id, publishPostMutation env id w
              = (inr tt,
                 after_failure (ReqPublish published (now env) id) e w)).
Proof.
  intros Hf. repeat split; intros;
    unfold createPostMutation, updatePostMutation, deletePostMutation,
      publishPostMutation, useMutation, bind, supabase, throw_if_error;
    rewrite Hf; reflexivity.
Qed.

Lemma nothing_sent_refl (w : World) : nothing_sent w w.
Proof. unfold nothing_sent. auto 10. Qed.

Lemma nothing_sent_validation (w : World) :
  nothing_sent w (snd (toast validation_toast w)).
Proof. unfold nothing_sent. simpl. auto 10. Qed.

Lemma createPostMutation_outcome (env : Env) (f : Form.t) (w : World) :
  handler_outcome env (createPostMutation env f) w.
Proof.
  unfold handler_outcome. destruct (fault env) as [e|] eqn:Hf.
  - destruct (mutation_failed env e w Hf) as (H & _).
    eexists. split; [apply H|]. right. left. by eexists _, _.
  - eexists. split; [by apply createPostMutation_ok|]. right. right.
    eexists _, _. simpl. auto 10.
Qed.

Lemma updatePostMutation_outcome (env : Env) (id : jsstring) (f : Form.t)
    (w : World) :
  handler_outcome env (updatePostMutation env (id, f)) w.
Proof.
  unfold handler_outcome. destruct (fault env) as [e|] eqn:Hf.
  - destruct (mutation_failed env e w Hf) as (_ & H & _).
    eexists. split; [apply H|]. right. left. by eexists _, _.
  - eexists. split; [by apply updatePostMutation_ok|]. right. right.
    eexists _, _. simpl. auto 10.
Qed.

Lemma handleCreatePost_outcome (toLowerCase : jsstring -> jsstring)
    (env : Env) (w : World) :
  handler_outcome env (handleCreatePost toLowerCase env) w.
Proof.
  destruct (is_empty (Form.title (formData (view w)))
            || is_empty (Form.content (formData (view w)))) eqn:Hv.
  - exists (snd (toast validation_toast w)). split.
    + unfold handleCreatePost, bind, get_view. simpl. by rewrite Hv.
    + left. apply nothing_sent_validation.
  - apply orb_false_iff in Hv as [Ht Hc].
    apply is_empty_false in Ht, Hc.
    unfold handler_outcome. rewrite handleCreatePost_valid by assumption.
    apply createPostMutation_outcome.
Qed.

Lemma handleUpdatePost_outcome (toLowerCase : jsstring -> jsstring)
    (env : Env) (w : World) :
  handler_outcome env (handleUpdatePost toLowerCase env) w.
Proof.
  destruct (isEditing (view w)) as [id|] eqn:He.
  2: { exists w. split; [|left; apply nothing_sent_refl].
       unfold handleUpdatePost, bind, get_view. simpl. by rewrite He. }
  destruct (is_empty id) eqn:Hid.
  { exists w. split; [|left; apply nothing_sent_refl].
    unfold handleUpdatePost, bind, get_view. simpl. by rewrite He, Hid. }
  destruct (is_empty (Form.title (formData (view w)))
            || is_empty (Form.content (formData (view w)))) eqn:Hv.
  - exists (snd (toast validation_toast w)). split.
    + unfold handleUpdatePost, bind, get_view. simpl.
      by rewrite He, Hid, Hv.
    + left. apply nothing_sent_validation.
  - apply orb_false_iff in Hv as [Ht Hc].
    apply is_empty_false in Hid, Ht, Hc.
    unfold handler_outcome.
    rewrite (handleUpdatePost_valid _ _ _ id) by assumption.
    apply updatePostMutation_outcome.
Qed.

Lemma handleDeletePost_outcome (env : Env) (id : jsstring) (w : World) :
  handler_outcome env (handleDeletePost env id) w.
Proof.
  unfold handler_outcome, handleDeletePost.
  destruct (confirm env).
  - destruct (fault env) as [e|] eqn:Hf.
    + destruct (mutation_failed env e w Hf) as (_ & _ & H & _).
      eexists. split; [apply H|]. right. left. by eexists _, _.
    + eexists. split; [by apply deletePostMutation_ok|]. right. right.
      eexists _, _. simpl. auto 10.
  - exists w. split; [reflexivity|]. left. apply nothing_sent_refl.
Qed.

Lemma handlePublishPost_outcome (env : Env) (id : jsstring) (w : World) :
  handler_outcome env (handlePublishPost env id) w.
Proof.
  unfold handler_outcome, handlePublishPost.
  destruct (fault env) as [e|] eqn:Hf.
  - destruct (mutation_failed env e w Hf) as (_ & _ & _ & H).
    eexists. split; [apply H|]. right. left. by eexists _, _.
  - eexists. split; [by apply publishPostMutation_accepted|]. right. right.
    eexists _, _. simpl. auto 10.
Qed.

Lemma cons_neq {A} (x : A) (l : list A) : x :: l <> l.
Proof.
  intros H. apply (f_equal (@length A)) in H. simpl in H. lia.
Qed.

Lemma outcome_refetch (env : Env) (h : M World unit) (w : World) :
  handler_outcome env h w ->
  (invalidated (exec h w) = blog_posts_key :: invalidated w <->
   fault env = None /\ requests (exec h w) <> requests w) /\
  (invalidated (exec h w) <> blog_posts_key :: invalidated w ->
   invalidated (exec h w) = invalidated w).
Proof.
  intros (w' & Hh & Ho). unfold exec. rewrite Hh. simpl.
  destruct Ho as [(Hr & Hi & _)|[(q & e & Hf & ->)|(q & t & Hf & Hr & Hi & _)]].
  - rewrite Hr, Hi. split; [|auto]. split.
    + intros H. symmetry in H. by apply cons_neq in H.
    + intros [_ H]. congruence.
  - simpl. split; [|auto]. split.
    + intros H. symmetry in H. by apply cons_neq in H.
    + intros [H _]. congruence.
  - rewrite Hr, Hi. split; [|congruence]. split; [|auto].
    intros _. split; [exact Hf|apply cons_neq].
Qed.

(** X4: the list query is invalidated, once, exactly by the handler calls
    whose request the backend accepted: a create, an update, a delete or a
    publish that sent nothing or whose call failed leaves the list of
    invalidated queries as it was. *)
Theorem refetch_iff_accepted (toLowerCase : jsstring -> jsstring)
    (env : Env) (id : jsstring) (w : World) (h : M World unit) :
  h = handleCreatePost toLowerCase env \/
  h = handleUpdatePost toLowerCase env \/
  h = handleDeletePost env id \/ h = handlePublishPost env id ->
  (invalidated (exec h w) = blog_posts_key :: invalidated w <->
   fault env = None /\ requests (exec h w) <> requests w) /\
  (invalidated (exec h w) <> blog_posts_key :: invalidated w ->
   invalidated (exec h w) = invalidated w).
Proof.
  intros [-> | [-> | [-> | ->]]]; apply outcome_refetch.
  - apply handleCreatePost_outcome.
  - apply handleUpdatePost_outcome.
  - apply handleDeletePost_outcome.
  - apply handlePublishPost_outcome.
Qed.

Lemma refetch_iff_accepted_witness :
  invalidated
    (exec (handleDeletePost env_ok (js "p2"))
       (world_with false None defaultBlogPostFormData))
  = [blog_posts_key] /\
  invalidated
    (exec (handleDeletePost env_fail (js "p2"))
       (world_with false None defaultBlogPostFormData))
  = [].
Proof.
  split.
  - apply (refetch_iff_accepted toLowerCase_latin1 env_ok (js "p2")
             (world_with false None defaultBlogPostFormData)
             (handleDeletePost env_ok (js "p2"))); [auto|].
    split; [reflexivity|discriminate].
  - apply (refetch_iff_accepted toLowerCase_latin1 env_fail (js "p2")
             (world_with false None defaultBlogPostFormData)
             (handleDeletePost env_fail (js "p2"))); [auto|].
    discriminate.
Defined.

Lemma outcome_discipline (env : Env) (h : M World unit) (w : World) :
  handler_outcome env h w ->
  fst (h w) = inr tt /\
  (requests (exec h w) = requests w \/
   exists q, requests (exec h w) = q :: requests w) /\
  (toasts (exec h w) = toasts w \/
   exists t, toasts (exec h w) = t :: toasts w) /\
  (requests (exec h w) <> requests w ->
   exists t, toasts (exec h w) = t :: toasts w /\
             (variant t = destructive <-> fault env <> None)).
Proof.
  intros (w' & Hh & Ho). unfold exec. rewrite Hh. simpl.
  split; [reflexivity|].
  destruct Ho as [(Hr & _ & _ & _ & _ & Ht)
                 |[(q & e & Hf & ->)|(q & t & Hf & Hr & _ & Ht & Hv & _)]].
  - rewrite Hr. split; [auto|]. split; [|congruence].
    destruct Ht as [->| ->]; eauto.
  - simpl. split; [eauto|]. split; [eauto|]. intros _.
    eexists. split; [reflexivity|]. simpl. rewrite Hf. split; congruence.
  - rewrite Hr, Ht. split; [eauto|]. split; [eauto|]. intros _.
    exists t. split; [reflexivity|]. rewrite Hv, Hf. split; congruence.
Qed.

(** X5: none of the four handlers throws; each sends at most one request
    and shows at most one notification; and one that sends a request shows
    exactly one, which is the destructive one exactly when the call
    failed. *)
Theorem handlers_catch_and_notify (toLowerCase : jsstring -> jsstring)
    (env : Env) (id : jsstring) (w : World) (h : M World unit) :
  h = handleCreatePost toLowerCase env \/
  h = handleUpdatePost toLowerCase env \/
  h = handleDeletePost env id \/ h = handlePublishPost env id ->
  fst (h w) = inr tt /\
  (requests (exec h w) = requests w \/
   exists q, requests (exec h w) = q :: requests w) /\
  (toasts (exec h w) = toasts w \/
   exists t, toasts (exec h w) = t :: toasts w) /\
  (requests (exec h w) <> requests w ->
   exists t, toasts (exec h w) = t :: toasts w /\
             (variant t = destructive <-> fault env <> None)).
Proof.
  intros [-> | [-> | [-> | ->]]]; apply outcome_discipline.
  - apply handleCreatePost_outcome.
  - apply handleUpdatePost_outcome.
  - apply handleDeletePost_outcome.
  - apply handlePublishPost_outcome.
Qed.

Lemma handlers_catch_and_notify_witness :
  exists t,
    toasts
      (exec (handlePublishPost env_fail (js "p3"))
         (world_with false None defaultBlogPostFormData))
    = [t] /\ variant t = destructive.
Proof.
  destruct (handlers_catch_and_notify toLowerCase_latin1 env_fail (js "p3")
              (world_with false None defaultBlogPostFormData)
              (handlePublishPost env_fail (js "p3")))
    as (_ & _ & _ & H); [auto 10|].
  destruct H as (t & Ht & Hv); [discriminate|].
  exists t. split; [exact Ht|]. apply Hv. discriminate.
Defined.

(** ** Guards of the handlers *)

(** X6: while no post is being edited ([isEditing] null or the empty
    string) the update handler returns at once: no validation, no
    notification, no request, also when the form is empty. *)
Theorem update_without_edit_does_nothing (toLowerCase : jsstring -> jsstring)
    (env : Env) (w : World) :
  isEditing (view w) = None \/ isEditing (view w) = Some [] ->
  handleUpdatePost toLowerCase env w = (inr tt, w).
Proof.
  intros [H|H]; unfold handleUpdatePost, bind, get_view; simpl; by rewrite H.
Qed.

Lemma update_without_edit_does_nothing_witness :
  handleUpdatePost toLowerCase_latin1 env_ok
    (world_with false None defaultBlogPostFormData)
  = (inr tt, world_with false None defaultBlogPostFormData).
Proof.
  apply (update_without_edit_does_nothing toLowerCase_latin1 env_ok).
  left. reflexivity.
Defined.

(** X7: a delete that the user does not confirm changes nothing; one that
    the user confirms sends the delete of that identifier, whether or not
    the table has such a post, and never changes the view state. *)
Theorem delete_asks_first (env : Env) (id : jsstring) (w : World) :
  (confirm env = false -> handleDeletePost env id w = (inr tt, w)) /\
  (confirm env = true ->
   requests (exec (handleDeletePost env id) w) = ReqDelete id :: requests w)
  /\ view (exec (handleDeletePost env id) w) = view w.
Proof.
  unfold exec, handleDeletePost. destruct (confirm env).
  - split; [discriminate|].
    unfold deletePostMutation, useMutation, bind, supabase, throw_if_error.
    destruct (fault env); simpl; split; reflexivity.
  - simpl. split; [reflexivity|]. split; [discriminate|reflexivity].
Qed.

Lemma delete_asks_first_witness :
  handleDeletePost (mkEnv example_time None false [] 0) (js "p2")
    (world_with false None defaultBlogPostFormData)
  = (inr tt, world_with false None defaultBlogPostFormData) /\
  requests (exec (handleDeletePost env_ok (js "p9"))
              (world_with false None defaultBlogPostFormData))
  = [ReqDelete (js "p9")].
Proof.
  split.
  - apply (delete_asks_first (mkEnv example_time None false [] 0)).
    reflexivity.
  - apply (delete_asks_first env_ok (js "p9")
             (world_with false None defaultBlogPostFormData)).
    reflexivity.
Defined.

(** ** Typing into the form *)

Lemma get_set_text (k k' : TextField) (v : jsstring) (f : Form.t) :
  get_text k' (set_text k v f) = if decide (k = k') then v else get_text k' f.
Proof. destruct k, k'; reflexivity. Qed.

Lemma set_text_same (k : TextField) (f : Form.t) :
  set_text k (get_text k f) f = f.
Proof. destruct k, f; reflexivity. Qed.

Lemma handleInputChange_spec (x : FieldValue) (w : World) :
  handleInputChange x w
  = (inr tt,
     mkWorld
       (mkView (isCreating (view w)) (isEditing (view w))
          match x with
          | TextValue k v => set_text k v (formData (view w))
          | StatusValue s => set_form_status s (formData (view w))
          end)
       (categories w) (blog_posts w) (toasts w) (requests w) (invalidated w)).
Proof. reflexivity. Qed.

(** X8: an input changes the one property it names: after a text input
    that property reads as the value typed, every other text property and
    the status read as before; a status input changes the status only; and
    no input opens or closes a form, notifies or calls the backend. *)
Theorem input_changes_one_property (k : TextField) (v : jsstring)
    (s : Status) (x : FieldValue) (w : World) :
  let typed := formData (view (exec (handleInputChange (TextValue k v)) w)) in
  let chosen := formData (view (exec (handleInputChange (StatusValue s)) w)) in
  let w' := exec (handleInputChange x) w in
  Form.status typed = Form.status (formData (view w)) /\
  (forall k', get_text k' typed
              = if decide (k = k') then v
                else get_text k' (formData (view w))) /\
  Form.status chosen = s /\
  (forall k', get_text k' chosen = get_text k' (formData (view w))) /\
  isCreating (view w') = isCreating (view w) /\
  isEditing (view w') = isEditing (view w) /\
  toasts w' = toasts w /\ requests w' = requests w /\
  blog_posts w' = blog_posts w.
Proof.
  unfold exec. rewrite !handleInputChange_spec.
  cbn [fst snd view formData isCreating isEditing toasts requests blog_posts].
  split; [reflexivity|]. split; [intros k'; apply get_set_text|].
  split; [reflexivity|]. split; [intros k'; by destruct k'|].
  repeat split.
Qed.

Lemma syncSeoTitle_spec (w : World) :
  syncSeoTitle w
  = (inr tt,
     if negb (is_empty (Form.title (formData (view w))))
        && is_empty (Form.seoTitle (formData (view w)))
     then
       mkWorld
         (mkView (isCreating (view w)) (isEditing (view w))
            (set_text FSeoTitle (Form.title (formData (view w)))
               (formData (view w))))
         (categories w) (blog_posts w) (toasts w) (requests w)
         (invalidated w)
     else w).
Proof.
  unfold syncSeoTitle, bind, get_view, ret. simpl.
  by destruct (_ && _).
Qed.

(** X9: the effect on the title fills an empty SEO title and does nothing
    else: a SEO title that is not empty is never overwritten, after the
    effect a form with a title has a SEO title, an empty SEO title becomes
    the title, no other property changes, and running the effect again
    changes nothing. *)
Theorem seo_title_filled_once (w : World) :
  let w' := exec syncSeoTitle w in
  (Form.seoTitle (formData (view w)) <> [] -> w' = w) /\
  (Form.title (formData (view w)) <> [] ->
   Form.seoTitle (formData (view w')) <> []) /\
  (Form.seoTitle (formData (view w)) = [] ->
   Form.seoTitle (formData (view w')) = Form.title (formData (view w))) /\
  (forall k, k <> FSeoTitle ->
     get_text k (formData (view w')) = get_text k (formData (view w))) /\
  Form.status (formData (view w')) = Form.status (formData (view w)) /\
  requests w' = requests w /\ toasts w' = toasts w /\
  exec syncSeoTitle w' = w'.
Proof.
  intros w'. subst w'. unfold exec. rewrite !syncSeoTitle_spec.
  destruct w as [[c e [t sl ex co ci ca au st pa seo md fk]] cs tb ts rq iv].
  destruct t as [|a t], seo as [|b seo]; cbn; repeat split;
    try congruence; try discriminate.
  intros k Hk. by destruct k.
Qed.

Lemma seo_title_filled_once_witness :
  Form.seoTitle
    (formData (view (exec syncSeoTitle
       (world_with true None
          (Form.mk (js "Halo") [] [] [] [] [] (js "Admin") draft [] [] [] [])))))
  = js "Halo" /\
  exec syncSeoTitle
    (world_with true None (form_with "Halo" "" "" draft ""))
  = world_with true None (form_with "Halo" "" "" draft "").
Proof.
  split.
  - destruct (seo_title_filled_once
                (world_with true None
                   (Form.mk (js "Halo") [] [] [] [] [] (js "Admin") draft
                      [] [] [] []))) as (_ & _ & H & _).
    apply H. reflexivity.
  - destruct (seo_title_filled_once
                (world_with true None (form_with "Halo" "" "" draft "")))
      as (H & _).
    apply H. discriminate.
Defined.

Lemma with_effects_title (t : jsstring) (w : World) :
  exec (with_effects (handleInputChange (TextValue FTitle t))) w
  = if bool_decide (t = Form.title (formData (view w)))
    then exec (handleInputChange (TextValue FTitle t)) w
    else exec syncSeoTitle (exec (handleInputChange (TextValue FTitle t)) w).
Proof.
  unfold exec, with_effects, bind, get_view, ret.
  rewrite handleInputChange_spec. cbn [fst snd view formData].
  assert (Ht : Form.title (set_text FTitle t (formData (view w))) = t)
    by reflexivity.
  rewrite Ht. by destruct (bool_decide _).
Qed.

Lemma with_effects_title_typed (t : jsstring) (w : World) :
  Form.title
    (formData (view
       (exec (with_effects (handleInputChange (TextValue FTitle t))) w)))
  = t.
Proof.
  rewrite with_effects_title.
  destruct (bool_decide _); unfold exec;
    rewrite ?syncSeoTitle_spec, handleInputChange_spec;
    cbn [fst snd view formData]; [reflexivity|].
  by destruct (_ && _).
Qed.

Lemma last_cons_any {A} (x : A) (l : list A) (d : A) :
  List.last (x :: l) d = List.last l x.
Proof.
  revert x d. induction l as [|y l IH]; intros x d; [reflexivity|].
  change (List.last (x :: y :: l) d) with (List.last (y :: l) d).
  rewrite (IH y d). symmetry. apply IH.
Qed.

(** Typing the titles [ts] one after the other, each followed by the
    effects of its render, leaves the last of them as the title. *)
Lemma typing_sets_title (ts : list jsstring) (w : World) :
  Form.title
    (formData (view
       (foldl (fun w t =>
                 exec (with_effects (handleInputChange (TextValue FTitle t))) w)
          w ts)))
  = List.last ts (Form.title (formData (view w))).
Proof.
  revert w. induction ts as [|t ts IH]; intros w; [reflexivity|].
  cbn [foldl]. rewrite IH, with_effects_title_typed.
  symmetry. apply last_cons_any.
Qed.

Lemma typing_keeps_seo_title (ts : list jsstring) (w : World) :
  Form.seoTitle (formData (view w)) <> [] ->
  Form.seoTitle
    (formData (view
       (foldl (fun w t =>
                 exec (with_effects (handleInputChange (TextValue FTitle t))) w)
          w ts)))
  = Form.seoTitle (formData (view w)).
Proof.
  revert w. induction ts as [|t ts IH]; intros w Hs; simpl; [reflexivity|].
  assert (Hstep :
    Form.seoTitle
      (formData (view
         (exec (with_effects (handleInputChange (TextValue FTitle t))) w)))
    = Form.seoTitle (formData (view w))).
  { rewrite with_effects_title.
    destruct (bool_decide _); unfold exec; [by rewrite handleInputChange_spec|].
    rewrite syncSeoTitle_spec, handleInputChange_spec.
    cbn [fst snd view formData].
    assert (Hk : Form.seoTitle (set_text FTitle t (formData (view w)))
                 = Form.seoTitle (formData (view w))) by reflexivity.
    rewrite Hk. apply is_empty_false in Hs. rewrite Hs, andb_false_r.
    exact Hk. }
  rewrite IH; rewrite Hstep; [reflexivity|exact Hs].
Qed.

(** X10: the SEO title follows the title once.  In a form with no title and
    no SEO title, the first title typed becomes the SEO title, and whatever
    titles are typed after it, the SEO title stays that first one while
    the title is the last one typed. *)
Theorem first_title_becomes_seo_title (t1 : jsstring) (ts : list jsstring)
    (w : World) :
  Form.title (formData (view w)) = [] ->
  Form.seoTitle (formData (view w)) = [] ->
  t1 <> [] ->
  let w' :=
    foldl (fun w t =>
             exec (with_effects (handleInputChange (TextValue FTitle t))) w)
      w (t1 :: ts) in
  Form.seoTitle (formData (view w')) = t1 /\
  Form.title (formData (view w')) = List.last ts t1.
Proof.
  intros Ht Hs H1 w'. subst w'. split.
  - cbn [foldl].
    assert (Hfirst :
      Form.seoTitle
        (formData (view
           (exec (with_effects (handleInputChange (TextValue FTitle t1))) w)))
      = t1).
    { rewrite with_effects_title, Ht.
      rewrite bool_decide_eq_false_2 by exact H1.
      unfold exec. rewrite syncSeoTitle_spec, handleInputChange_spec.
      cbn [fst snd view formData].
      assert (Hk : Form.seoTitle (set_text FTitle t1 (formData (view w))) = [])
        by exact Hs.
      assert (Hk' : Form.title (set_text FTitle t1 (formData (view w))) = t1)
        by reflexivity.
      rewrite Hk, Hk'. apply is_empty_false in H1. rewrite H1. reflexivity. }
    rewrite typing_keeps_seo_title; rewrite Hfirst; [reflexivity|exact H1].
  - rewrite typing_sets_title. apply last_cons_any.
Qed.

Lemma first_title_becomes_seo_title_witness :
  let w' :=
    foldl (fun w t =>
             exec (with_effects (handleInputChange (TextValue FTitle t))) w)
      (world_with true None defaultBlogPostFormData)
      [js "H"; js "Ha"; js "Hal"; js "Halo"] in
  Form.seoTitle (formData (view w')) = js "H" /\
  Form.title (formData (view w')) = js "Halo".
Proof.
  apply (first_title_becomes_seo_title (js "H") [js "Ha"; js "Hal"; js "Halo"]
           (world_with true None defaultBlogPostFormData));
    [reflexivity|reflexivity|discriminate].
Defined.

(** ** Editing a listed post *)

Lemma handleStartEdit_spec (post : Post.t) (w : World) :
  handleStartEdit post w
  = (inr tt,
     mkWorld (mkView (isCreating (view w)) (Some (Post.id post))
                (form_of_post post))
       (categories w) (blog_posts w) (toasts w) (requests w) (invalidated w)).
Proof.
  unfold handleStartEdit, bind, setIsEditing, setFormData, get_view, set_view,
    form_of_post.
  simpl. by destruct (Post.publishedAt post).
Qed.

Lemma start_edit_with_effects (post : Post.t) (w : World) :
  exists f,
    exec (with_effects (handleStartEdit post)) w
    = mkWorld (mkView (isCreating (view w)) (Some (Post.id post)) f)
        (categories w) (blog_posts w) (toasts w) (requests w)
        (invalidated w) /\
    (forall k, k <> FSeoTitle -> get_text k f = get_text k (form_of_post post))
    /\ Form.status f = Post.status post /\
    (Post.seoTitle post <> [] -> f = form_of_post post) /\
    (Form.seoTitle f = Post.seoTitle post \/
     Form.seoTitle f = Post.title post) /\
    (Post.seoTitle post = [] ->
     Form.title (formData (view w)) <> Post.title post ->
     Form.seoTitle f = Post.title post).
Proof.
  unfold exec, with_effects, bind, get_view, ret.
  rewrite handleStartEdit_spec. cbn [fst snd view formData].
  change (Form.title (form_of_post post)) with (Post.title post).
  destruct (bool_decide (Post.title post = Form.title (formData (view w))))
    eqn:E.
  - exists (form_of_post post). cbn [snd]. split; [reflexivity|].
    apply bool_decide_eq_true in E.
    repeat split; auto. intros _ H. symmetry in E. contradiction.
  - rewrite syncSeoTitle_spec. cbn [fst snd view formData isCreating isEditing
      categories blog_posts toasts requests invalidated].
    change (Form.title (form_of_post post)) with (Post.title post).
    change (Form.seoTitle (form_of_post post)) with (Post.seoTitle post).
    destruct (negb (is_empty (Post.title post))
              && is_empty (Post.seoTitle post)) eqn:Hc.
    + exists (set_text FSeoTitle (Post.title post) (form_of_post post)).
      apply andb_true_iff in Hc as [_ Hs]. apply is_empty_true in Hs.
      split; [reflexivity|]. repeat split; auto.
      * intros k Hk. rewrite get_set_text. by destruct (decide _).
      * congruence.
    + exists (form_of_post post). split; [reflexivity|].
      repeat split; auto. intros Hs Hne.
      apply andb_false_iff in Hc as [Hc|Hc].
      * apply negb_false_iff, is_empty_true in Hc.
        change (Form.seoTitle (form_of_post post)) with (Post.seoTitle post).
        congruence.
      * apply is_empty_false in Hc. contradiction.
Qed.

(** X11: opening a listed post for editing and saving it at once sends one
    update of that post which carries the post's own title, excerpt,
    content, cover image, category, author, status, meta description and
    focus keyword; its slug, unless empty, and its SEO title, unless empty;
    and its publish time, unless it is published with none. *)
Theorem edit_then_save_writes_post_back (toLowerCase : jsstring -> jsstring)
    (env : Env) (post : Post.t) (w : World) :
  Post.id post <> [] -> Post.title post <> [] -> Post.content post <> [] ->
  exists v,
    requests
      (exec (handleUpdatePost toLowerCase env)
         (exec (with_effects (handleStartEdit post)) w))
    = ReqUpdate v (Post.id post) :: requests w /\
    Cols.title v = Post.title post /\
    Cols.excerpt v = Post.excerpt post /\
    Cols.content v = Post.content post /\
    Cols.cover_image v = Post.coverImage post /\
    Cols.category v = Post.category post /\
    Cols.author v = Post.author post /\
    Cols.status v = Post.status post /\
    Cols.meta_description v = Post.metaDescription post /\
    Cols.focus_keyword v = Post.focusKeyword post /\
    (Post.slug post <> [] -> Cols.slug v = Post.slug post) /\
    (Post.slug post = [] ->
     Cols.slug v = generateSlug toLowerCase (Post.title post)) /\
    (Post.seoTitle post <> [] -> Cols.seo_title v = Post.seoTitle post) /\
    (Post.publishedAt post <> [] \/ Post.status post <> published ->
     Cols.published_at v = Post.publishedAt post) /\
    (Post.publishedAt post = [] -> Post.status post = published ->
     Cols.published_at v = now env).
Proof.
  intros Hid Ht Hc.
  destruct (start_edit_with_effects post w)
    as (f & -> & Hk & Hst & Hseo & _ & _).
  pose proof (Hk FTitle ltac:(discriminate)) as H1.
  pose proof (Hk FSlug ltac:(discriminate)) as H2.
  pose proof (Hk FExcerpt ltac:(discriminate)) as H3.
  pose proof (Hk FContent ltac:(discriminate)) as H4.
  pose proof (Hk FCoverImage ltac:(discriminate)) as H5.
  pose proof (Hk FCategory ltac:(discriminate)) as H6.
  pose proof (Hk FAuthor ltac:(discriminate)) as H7.
  pose proof (Hk FPublishedAt ltac:(discriminate)) as H8.
  pose proof (Hk FMetaDescription ltac:(discriminate)) as H9.
  pose proof (Hk FFocusKeyword ltac:(discriminate)) as H10.
  cbn [get_text form_of_post Form.title Form.slug Form.excerpt Form.content
       Form.coverImage Form.category Form.author Form.publishedAt
       Form.metaDescription Form.focusKeyword] in H1, H2, H3, H4, H5, H6, H7,
    H8, H9, H10.
  eexists. split.
  { rewrite (handleUpdatePost_requests toLowerCase env _ (Post.id post));
      cbn [view formData isEditing requests]; try reflexivity; congruence. }
  cbn [view formData update_values Form.with_slug Cols.title Cols.slug
       Cols.excerpt Cols.content Cols.cover_image Cols.category Cols.author
       Cols.status Cols.published_at Cols.seo_title Cols.meta_description
       Cols.focus_keyword Form.title Form.slug Form.excerpt Form.content
       Form.coverImage Form.category Form.author Form.status
       Form.publishedAt Form.seoTitle Form.metaDescription Form.focusKeyword].
  rewrite H1, H2, H8, Hst.
  repeat (split; [first [assumption | reflexivity]|]).
  split; [intros Hs; by apply finalSlug_nonempty|].
  split; [intros Hs; by rewrite Hs|].
  split; [intros Hs; by rewrite (Hseo Hs)|].
  split.
  - intros [Hp|Hp].
    + apply is_empty_false in Hp. by rewrite Hp, andb_false_r.
    + by rewrite bool_decide_eq_false_2.
  - intros Hp Hs. by rewrite Hp, Hs.
Qed.

Lemma edit_then_save_writes_post_back_witness :
  exists v,
    requests
      (exec (handleUpdatePost toLowerCase_latin1 env_ok)
         (exec (with_effects
                  (handleStartEdit
                     (to_post (fun _ => js "1 Februari 2024")
                        (row_with "p2" "Dua" draft
                           (Some (js "2024-02-01T09:00:00.000Z")) 300))))
            (world_with false None defaultBlogPostFormData)))
    = [ReqUpdate v (js "p2")] /\
    Cols.title v = js "Dua" /\ Cols.author v = js "Admin" /\
    Cols.published_at v = js "2024-02-01T09:00:00.000Z".
Proof.
  destruct (edit_then_save_writes_post_back toLowerCase_latin1 env_ok
              (to_post (fun _ => js "1 Februari 2024")
                 (row_with "p2" "Dua" draft
                    (Some (js "2024-02-01T09:00:00.000Z")) 300))
              (world_with false None defaultBlogPostFormData))
    as (v & Hr & Ht & _ & _ & _ & _ & Ha & _ & _ & _ & _ & _ & _ & Hp & _);
    [discriminate..|].
  exists v. split; [exact Hr|]. split; [exact Ht|]. split; [exact Ha|].
  apply Hp. left. discriminate.
Defined.

Lemma or_else_filled (x : option jsstring) (d : jsstring) :
  filled x -> Some (or_else x d) = x /\ or_else x d <> [].
Proof.
  intros (s & -> & Hs). simpl. apply is_empty_false in Hs as Hs'.
  rewrite Hs'. apply is_empty_false in Hs'. auto.
Qed.

(** X12: the list query and the edit form are inverse to each other on rows
    that are filled in: opening the post listed for a row whose text columns
    all hold a text, and saving it at once, sends one update of that row
    which writes every column as it is. *)
Theorem unchanged_save_writes_row_back (toLowerCase : jsstring -> jsstring)
    (toLocaleDateString : N -> jsstring) (env : Env) (r : Row.t)
    (w : World) :
  complete_row r -> Row.id r <> [] ->
  exists v,
    requests
      (exec (handleUpdatePost toLowerCase env)
         (exec (with_effects (handleStartEdit (to_post toLocaleDateString r)))
            w))
    = ReqUpdate v (Row.id r) :: requests w /\
    set_cols v r = r.
Proof.
  intros (Ht & Hsl & Hex & Hco & Hci & Hca & Hau & Hpa & Hse & Hmd & Hfk) Hid.
  set (post := to_post toLocaleDateString r).
  destruct (or_else_filled _ [] Ht) as [Et Nt].
  destruct (or_else_filled _ [] Hsl) as [Esl Nsl].
  destruct (or_else_filled _ [] Hex) as [Eex _].
  destruct (or_else_filled _ [] Hco) as [Eco Nco].
  destruct (or_else_filled _ [] Hci) as [Eci _].
  destruct (or_else_filled _ [] Hca) as [Eca _].
  destruct (or_else_filled _ (js "Admin") Hau) as [Eau _].
  destruct (or_else_filled _ [] Hpa) as [Epa Npa].
  destruct (or_else_filled _ [] Hse) as [Ese Nse].
  destruct (or_else_filled _ [] Hmd) as [Emd _].
  destruct (or_else_filled _ [] Hfk) as [Efk _].
  destruct (start_edit_with_effects post w) as (f & -> & _ & _ & Hseo & _).
  rewrite (Hseo Nse). clear Hseo f.
  eexists. split.
  { rewrite (handleUpdatePost_requests toLowerCase env _ (Row.id r));
      cbn [view formData isEditing requests]; try reflexivity; assumption. }
  cbn [view formData form_of_post post to_post Form.slug Form.title
       Post.title Post.slug].
  rewrite finalSlug_nonempty by exact Nsl.
  unfold set_cols, update_values, Form.with_slug.
  cbn [Cols.title Cols.slug Cols.excerpt Cols.content Cols.cover_image
       Cols.category Cols.author Cols.status Cols.published_at
       Cols.seo_title Cols.meta_description Cols.focus_keyword
       Form.title Form.slug Form.excerpt Form.content Form.coverImage
       Form.category Form.author Form.status Form.publishedAt
       Form.seoTitle Form.metaDescription Form.focusKeyword
       Post.title Post.slug Post.excerpt Post.content Post.coverImage
       Post.category Post.author Post.status Post.publishedAt
       Post.seoTitle Post.metaDescription Post.focusKeyword].
  subst post. unfold form_of_post, to_post.
  cbn [Form.title Form.slug Form.excerpt Form.content Form.coverImage
       Form.category Form.author Form.status Form.publishedAt
       Form.seoTitle Form.metaDescription Form.focusKeyword
       Post.title Post.slug Post.excerpt Post.content Post.coverImage
       Post.category Post.author Post.status Post.publishedAt
       Post.seoTitle Post.metaDescription Post.focusKeyword].
  apply is_empty_false in Npa. rewrite Npa, andb_false_r.
  rewrite Et, Esl, Eex, Eco, Eci, Eca, Eau, Epa, Ese, Emd, Efk.
  by destruct r.
Qed.

Lemma unchanged_save_writes_row_back_witness :
  let r := Row.mk (js "p5") (Some (js "Lima")) (Some (js "lima"))
             (Some (js "ringkas")) (Some (js "<p>isi</p>"))
             (Some (js "/lima.png")) (Some (js "Tips")) (Some (js "Rina"))
             published (Some (js "2024-03-01T00:00:00.000Z"))
             (Some (js "Lima hal")) (Some (js "meta")) (Some (js "lima")) 500 in
  exists v,
    requests
      (exec (handleUpdatePost toLowerCase_latin1 env_ok)
         (exec (with_effects
                  (handleStartEdit (to_post (fun _ => js "1 Maret 2024") r)))
            (world_with false None defaultBlogPostFormData)))
    = [ReqUpdate v (js "p5")] /\
    set_cols v r = r.
Proof.
  intros r.
  apply (unchanged_save_writes_row_back toLowerCase_latin1
           (fun _ => js "1 Maret 2024") env_ok r
           (world_with false None defaultBlogPostFormData)).
  - repeat split; eexists; (split; [reflexivity|discriminate]).
  - discriminate.
Defined.

Lemma insert_desc_length (r : Row.t) (l : list Row.t) :
  length (insert_desc r l) = S (length l).
Proof.
  induction l as [|x l IH]; simpl; [reflexivity|].
  destruct (_ <? _)%N; simpl; [reflexivity|]. by rewrite IH.
Qed.

Lemma order_desc_length (t : list Row.t) : length (order_desc t) = length t.
Proof.
  induction t as [|r t IH]; simpl; [reflexivity|].
  by rewrite insert_desc_length, IH.
Qed.

Lemma or_else_nonempty (x : option jsstring) (d : jsstring) :
  d <> [] -> or_else x d <> [].
Proof.
  intros Hd. destruct x as [s|]; simpl; [|exact Hd].
  destruct (is_empty s) eqn:E; [exact Hd|]. by apply is_empty_false.
Qed.

(** X13: the list query never throws and never changes the table or the
    view.  When the backend fails it, it shows one destructive notification
    with the error's message and lists nothing; otherwise it lists one post
    per row of the table, notifies nothing, and every listed post has an
    author, "Admin" standing for a missing or empty one. *)
Theorem list_query_outcome (toLocaleDateString : N -> jsstring) (env : Env)
    (w : World) :
  exists posts w',
    blogPostsQuery toLocaleDateString env w = (inr posts, w') /\
    blog_posts w' = blog_posts w /\ view w' = view w /\
    requests w' = ReqSelect :: requests w /\
    (forall e, fault env = Some e ->
       posts = [] /\
       toasts w'
       = mkToast destructive (js "Error fetching blog posts") (message e)
         :: toasts w) /\
    (fault env = None ->
       length posts = length (blog_posts w) /\ toasts w' = toasts w /\
       Forall (fun p => Post.author p <> []) posts).
Proof.
  unfold blogPostsQuery, supabase_select, bind, supabase, ret, toast.
  destruct (fault env) as [e|]; simpl; eexists _, _;
    (split; [reflexivity|]); simpl; repeat split; try discriminate.
  - congruence.
  - by rewrite length_map, order_desc_length.
  - apply Forall_map, List.Forall_forall. intros r _. simpl.
    apply or_else_nonempty. discriminate.
Qed.

Lemma list_query_outcome_witness :
  exists w',
    blogPostsQuery (fun _ => js "-") env_ok
      (world_with false None defaultBlogPostFormData)
    = (inr (map (to_post (fun _ => js "-"))
              [ row_with "p2" "Dua" draft
                  (Some (js "2024-02-01T09:00:00.000Z")) 300;
                row_with "p3" "Tiga" draft None 200;
                row_with "p1" "Satu" published
                  (Some (js "2024-01-05T10:00:00.000Z")) 100 ]), w') /\
    map Post.author
      (map (to_post (fun _ => js "-")) example_table)
    = [js "Admin"; js "Admin"; js "Admin"].
Proof.
  destruct (list_query_outcome (fun _ => js "-") env_ok
              (world_with false None defaultBlogPostFormData))
    as (posts & w' & Hq & _).
  exists w'. split; [|reflexivity].
  rewrite Hq. f_equal. f_equal.
  apply (f_equal fst) in Hq. simpl in Hq. injection Hq as <-. reflexivity.
Defined.

(** ** What the page shows next *)

(** X14: after a publish that the backend accepts, a list query that
    succeeds lists every post with that identifier as published, with the
    time of the publish as its publish time, so that the button "Publish" is
    not drawn for it again. *)
Theorem published_post_not_offered_again (toLocaleDateString : N -> jsstring)
    (env env' : Env) (id : jsstring) (w : World) :
  fault env = None -> fault env' = None ->
  exists posts w',
    blogPostsQuery toLocaleDateString env'
      (exec (handlePublishPost env id) w) = (inr posts, w') /\
    length posts = length (blog_posts w) /\
    Forall (fun p => Post.id p = id ->
                     Post.status p = published /\
                     Post.publishedAt p = now env /\
                     publish_offered p = false) posts /\
    (forall r, In r (blog_posts w) -> Row.id r <> id ->
       In (to_post toLocaleDateString r) posts).
Proof.
  intros Hf Hf'. unfold exec, handlePublishPost.
  rewrite publishPostMutation_accepted by exact Hf.
  unfold blogPostsQuery, supabase_select, bind, supabase, ret.
  rewrite Hf'. cbn [fst snd blog_posts]. eexists _, _.
  split; [reflexivity|]. split; [|split].
  - rewrite length_map, order_desc_length. unfold db_update.
    apply length_map.
  - apply Forall_map, List.Forall_forall. intros r' Hin Hid.
    apply order_desc_In, db_update_In in Hin as (r & _ & ->).
    cbn [to_post Post.id] in Hid.
    destruct (bool_decide (Row.id r = id)) eqn:E.
    + unfold publish_offered. simpl.
      split; [reflexivity|]. split; [|reflexivity].
      by destruct (now env).
    + apply bool_decide_eq_false in E. contradiction.
  - intros r Hin Hid. apply List.in_map, order_desc_In, db_update_In.
    exists r. split; [exact Hin|]. by rewrite bool_decide_eq_false_2.
Qed.

Lemma published_post_not_offered_again_witness :
  exists posts w',
    blogPostsQuery (fun _ => js "-") env_ok
      (exec (handlePublishPost env_ok (js "p3"))
         (world_with false None defaultBlogPostFormData))
    = (inr posts, w') /\
    map publish_offered posts = [true; false; false].
Proof.
  destruct (published_post_not_offered_again (fun _ => js "-") env_ok env_ok
              (js "p3") (world_with false None defaultBlogPostFormData))
    as (posts & w' & Hq & _); [reflexivity|reflexivity|].
  exists posts, w'. split; [exact Hq|].
  apply (f_equal fst) in Hq. simpl in Hq. injection Hq as <-. reflexivity.
Defined.

Lemma onCancel_spec (action : Action) (w : World) :
  onCancel action w
  = (inr tt,
     mkWorld
       match action with
       | create => mkView false (isEditing (view w)) (formData (view w))
       | edit => mkView (isCreating (view w)) None (formData (view w))
       end
       (categories w) (blog_posts w) (toasts w) (requests w) (invalidated w)).
Proof. by destruct action. Qed.

(** X15: the form data outlive the edit form.  Neither the button "Batal"
    nor an accepted update clears them, so the create form opened next
    shows the post last edited, and saving it inserts a post with the
    title, the content and the slug that the update wrote. *)
Theorem create_form_opens_on_last_edit (toLowerCase : jsstring -> jsstring)
    (env env' : Env) (id : jsstring) (w : World) :
  isCreating (view w) = false ->
  isEditing (view w) = Some id -> id <> [] ->
  Form.title (formData (view w)) <> [] ->
  Form.content (formData (view w)) <> [] ->
  fault env = None ->
  let saved := exec (handleUpdatePost toLowerCase env) w in
  let cancelled := exec (onCancel edit) w in
  view (exec onAddPost saved) = mkView true None (formData (view w)) /\
  view (exec onAddPost cancelled) = mkView true None (formData (view w)) /\
  screen false (view (exec onAddPost saved)) = CreateForm /\
  exists u v,
    requests saved = ReqUpdate u id :: requests w /\
    requests (exec (handleCreatePost toLowerCase env') (exec onAddPost saved))
    = ReqInsert v :: requests saved /\
    Cols.title v = Cols.title u /\ Cols.content v = Cols.content u /\
    Cols.slug v = Cols.slug u.
Proof.
  intros Hcr He Hid Ht Hc Hf saved cancelled. subst saved cancelled.
  assert (Hs : exec (handleUpdatePost toLowerCase env) w
               = snd (updatePostMutation env
                        (id,
                         Form.with_slug
                           (finalSlug toLowerCase
                              (Form.slug (formData (view w)))
                              (Form.title (formData (view w))))
                           (formData (view w))) w)).
  { unfold exec. by rewrite (handleUpdatePost_valid _ _ _ id). }
  rewrite Hs, updatePostMutation_ok by assumption. clear Hs.
  cbn [snd]. split; [|split; [|split]].
  - unfold exec. cbn. reflexivity.
  - unfold exec. rewrite onCancel_spec. cbn. reflexivity.
  - unfold exec. cbn. reflexivity.
  - eexists _, _. split; [reflexivity|]. split.
    + rewrite handleCreatePost_requests; [reflexivity|exact Ht|exact Hc].
    + auto.
Qed.

Lemma create_form_opens_on_last_edit_witness :
  let f := form_with "Dua" "dua" "<p>isi</p>" draft "" in
  let w := world_with false (Some (js "p2")) f in
  view (exec onAddPost (exec (handleUpdatePost toLowerCase_latin1 env_ok) w))
  = mkView true None f.
Proof.
  intros f w.
  destruct (create_form_opens_on_last_edit toLowerCase_latin1 env_ok env_ok
              (js "p2") w) as (H & _);
    [reflexivity|reflexivity|discriminate|discriminate|discriminate
    |reflexivity|].
  exact H.
Defined.

Lemma loadCategories_spec (resp : Error + list Category.t) (w : World) :
  loadCategories resp w
  = (inr tt,
     mkWorld (view w)
       match resp with inl _ => [] | inr rows => map Category.name rows end
       (blog_posts w)
       match resp with
       | inl e =>
           mkToast destructive (js "Error fetching categories") (message e)
           :: toasts w
       | inr _ => toasts w
       end
       (requests w) (invalidated w)).
Proof. by destruct resp. Qed.

Lemma create_accepted_category (toLowerCase : jsstring -> jsstring)
    (env : Env) (w : World) :
  Form.title (formData (view w)) <> [] ->
  Form.content (formData (view w)) <> [] ->
  fault env = None ->
  Form.category (formData (view (exec (handleCreatePost toLowerCase env) w)))
  = hd [] (categories w).
Proof.
  intros Ht Hc Hf. unfold exec.
  rewrite handleCreatePost_valid, createPostMutation_ok by assumption.
  cbn [snd view formData Form.with_category Form.category].
  by destruct (categories w).
Qed.

(** X16: the category query never throws.  When the backend fails it, the
    page shows one destructive notification and has no category, and the
    form that an accepted create leaves has the empty category; otherwise
    the categories are the names of the rows, in their order, and that form
    has the first of them. *)
Theorem categories_after_query (toLowerCase : jsstring -> jsstring)
    (env : Env) (resp : Error + list Category.t) (w : World) :
  Form.title (formData (view w)) <> [] ->
  Form.content (formData (view w)) <> [] ->
  fault env = None ->
  let w1 := exec (loadCategories resp) w in
  fst (loadCategories resp w) = inr tt /\
  view w1 = view w /\ requests w1 = requests w /\
  (forall e, resp = inl e ->
     categories w1 = [] /\
     toasts w1
     = mkToast destructive (js "Error fetching categories") (message e)
       :: toasts w /\
     Form.category
       (formData (view (exec (handleCreatePost toLowerCase env) w1))) = []) /\
  (forall rows, resp = inr rows ->
     categories w1 = map Category.name rows /\ toasts w1 = toasts w /\
     Form.category
       (formData (view (exec (handleCreatePost toLowerCase env) w1)))
     = hd [] (map Category.name rows)).
Proof.
  intros Ht Hc Hf w1.
  assert (H1 : w1 = snd (loadCategories resp w)) by reflexivity.
  clearbody w1. rewrite loadCategories_spec in H1. cbn [snd] in H1.
  rewrite loadCategories_spec. cbn [fst]. subst w1.
  split; [reflexivity|]. split; [reflexivity|]. split; [reflexivity|].
  split.
  - intros e ->. by rewrite create_accepted_category.
  - intros rows ->. by rewrite create_accepted_category.
Qed.

Lemma categories_after_query_witness :
  let w := world_with true None (form_with "Dua" "" "<p>isi</p>" draft "") in
  Form.category
    (formData (view
       (exec (handleCreatePost toLowerCase_latin1 env_ok)
          (exec (loadCategories (inl example_error)) w)))) = [] /\
  Form.category
    (formData (view
       (exec (handleCreatePost toLowerCase_latin1 env_ok)
          (exec (loadCategories
                   (inr [Category.mk (js "Berita"); Category.mk (js "Tips")]))
             w)))) = js "Berita".
Proof.
  intros w. split.
  - destruct (categories_after_query toLowerCase_latin1 env_ok
                (inl example_error) w) as (_ & _ & _ & H & _);
      [discriminate|discriminate|reflexivity|].
    destruct (H example_error eq_refl) as (_ & _ & Hc). exact Hc.
  - destruct (categories_after_query toLowerCase_latin1 env_ok
                (inr [Category.mk (js "Berita"); Category.mk (js "Tips")]) w)
      as (_ & _ & _ & _ & H); [discriminate|discriminate|reflexivity|].
    destruct (H _ eq_refl) as (_ & _ & Hc). exact Hc.
Defined.

Lemma handleImageUpload_spec (imageUrl : option jsstring) (w : World) :
  handleImageUpload imageUrl w
  = (inr tt,
     match imageUrl with
     | Some (c :: u) =>
         mkWorld
           (mkView (isCreating (view w)) (isEditing (view w))
              (set_text FCoverImage (c :: u) (formData (view w))))
           (categories w) (blog_posts w) (toasts w) (requests w)
           (invalidated w)
     | _ => w
     end).
Proof. by destruct imageUrl as [[|c u]|]. Qed.

(** X17: the cover image dialog changes the cover image only, and only on
    an answer that is not empty: a cancelled dialog or an empty answer
    leaves the world as it was. *)
Theorem image_upload_sets_cover_image (imageUrl : option jsstring)
    (w : World) :
  let w' := exec (handleImageUpload imageUrl) w in
  (imageUrl = None \/ imageUrl = Some [] -> w' = w) /\
  (forall u, imageUrl = Some u -> u <> [] ->
     Form.coverImage (formData (view w')) = u /\
     Form.status (formData (view w')) = Form.status (formData (view w)) /\
     forall k, k <> FCoverImage ->
       get_text k (formData (view w')) = get_text k (formData (view w))) /\
  isCreating (view w') = isCreating (view w) /\
  isEditing (view w') = isEditing (view w) /\
  requests w' = requests w /\ toasts w' = toasts w.
Proof.
  intros w'. subst w'. unfold exec. rewrite handleImageUpload_spec.
  cbn [snd].
  destruct imageUrl as [[|c u]|].
  - split; [auto|]. split; [|auto]. intros u' [= <-] H. contradiction.
  - cbn [view formData isCreating isEditing requests toasts].
    split; [intros [H|H]; discriminate H|]. split; [|auto].
    intros u' [= <-] _. split; [reflexivity|]. split; [reflexivity|].
    intros k Hk. rewrite get_set_text. by destruct (decide _).
  - split; [auto|]. split; [|auto]. intros u' H. discriminate H.
Qed.

Lemma image_upload_sets_cover_image_witness :
  exec (handleImageUpload (Some []))
    (world_with true None defaultBlogPostFormData)
  = world_with true None defaultBlogPostFormData /\
  Form.coverImage
    (formData (view
       (exec (handleImageUpload (Some (js "/a.png")))
          (world_with true None defaultBlogPostFormData)))) = js "/a.png".
Proof.
  split.
  - destruct (image_upload_sets_cover_image (Some [])
                (world_with true None defaultBlogPostFormData)) as (H & _).
    apply H. right. reflexivity.
  - destruct (image_upload_sets_cover_image (Some (js "/a.png"))
                (world_with true None defaultBlogPostFormData))
      as (_ & H & _).
    destruct (H (js "/a.png") eq_refl) as (Hc & _); [discriminate|exact Hc].
Defined.

(** * Further properties of [useUrlData] *)

(** ** The overlay, URL by URL *)

Lemma url_values_ext (a b : UrlValues) :
  (forall k, get_url k a = get_url k b) -> a = b.
Proof.
  intros H. destruct a, b.
  pose proof (H HeroCta). pose proof (H HeroPricing).
  pose proof (H CtaRegister). pose proof (H NavbarLogin).
  pose proof (H NavbarRegister). pose proof (H PricingSchedule).
  pose proof (H DashboardRegister). simpl in *. congruence.
Qed.

(** Decides the identifier tests of a group whose identifier is known. *)
Ltac decide_group_id :=
  repeat match goal with
         | |- context [bool_decide (?a = ?b)] =>
             first
               [ rewrite (bool_decide_eq_true_2 (a = b)) by reflexivity
               | rewrite (bool_decide_eq_false_2 (a = b))
                   by (vm_compute; discriminate) ]
         end.

Lemma overlay_values_group_get (k : UrlField) (v : UrlValues)
    (group : Urls.t) :
  get_url k (overlay_values_group v group)
  = from_option id (get_url k v) (written k group).
Proof.
  unfold overlay_values_group, written, usable, items_needed.
  destruct group as [gid [[|i0 [|i1 rest]]|]]; cbn [Urls.items Urls.id].
  - by repeat (case_bool_decide; cbn).
  - destruct (decide (gid = js "1")) as [->|N1].
    { decide_group_id. by destruct k. }
    rewrite (bool_decide_eq_false_2 (gid = js "1")) by exact N1.
    destruct (decide (gid = js "2")) as [->|N2].
    { destruct k; decide_group_id; reflexivity. }
    rewrite (bool_decide_eq_false_2 (gid = js "2")) by exact N2.
    destruct (decide (gid = js "3")) as [->|N3].
    { decide_group_id. by destruct k. }
    rewrite (bool_decide_eq_false_2 (gid = js "3")) by exact N3.
    destruct (decide (gid = js "4")) as [->|N4].
    { destruct k; decide_group_id; reflexivity. }
    rewrite (bool_decide_eq_false_2 (gid = js "4")) by exact N4.
    destruct (decide (gid = js "5")) as [->|N5].
    { destruct k; decide_group_id; reflexivity. }
    rewrite (bool_decide_eq_false_2 (gid = js "5")) by exact N5.
    reflexivity.
  - destruct (decide (gid = js "1")) as [->|N1].
    { destruct k; decide_group_id; reflexivity. }
    rewrite (bool_decide_eq_false_2 (gid = js "1")) by exact N1.
    destruct (decide (gid = js "2")) as [->|N2].
    { destruct k; decide_group_id; reflexivity. }
    rewrite (bool_decide_eq_false_2 (gid = js "2")) by exact N2.
    destruct (decide (gid = js "3")) as [->|N3].
    { destruct k; decide_group_id; reflexivity. }
    rewrite (bool_decide_eq_false_2 (gid = js "3")) by exact N3.
    destruct (decide (gid = js "4")) as [->|N4].
    { destruct k; decide_group_id; reflexivity. }
    rewrite (bool_decide_eq_false_2 (gid = js "4")) by exact N4.
    destruct (decide (gid = js "5")) as [->|N5].
    { destruct k; decide_group_id; reflexivity. }
    rewrite (bool_decide_eq_false_2 (gid = js "5")) by exact N5.
    reflexivity.
  - by repeat (case_bool_decide; cbn).
Qed.

Lemma last_written_from (k : UrlField) (data : list Urls.t)
    (o : option jsstring) :
  foldl (fun acc g => match written k g with Some u => Some u | None => acc end)
    o data
  = match last_written k data with Some u => Some u | None => o end.
Proof.
  unfold last_written. revert o.
  induction data as [|g data IH]; intros o; [reflexivity|].
  cbn [foldl]. rewrite IH. rewrite (IH (match written k g with
                                        | Some u => Some u
                                        | None => None
                                        end)).
  destruct (foldl _ None data); [reflexivity|].
  by destruct (written k g).
Qed.

Lemma last_written_cons (k : UrlField) (g : Urls.t) (data : list Urls.t) :
  last_written k (g :: data)
  = match last_written k data with
    | Some u => Some u
    | None => written k g
    end.
Proof.
  unfold last_written at 1. cbn [foldl]. rewrite last_written_from.
  destruct (last_written k data); [reflexivity|].
  by destruct (written k g).
Qed.

Lemma last_written_app (k : UrlField) (d1 d2 : list Urls.t) :
  last_written k (d1 ++ d2)
  = match last_written k d2 with
    | Some u => Some u
    | None => last_written k d1
    end.
Proof.
  unfold last_written at 1. rewrite foldl_app.
  fold (last_written k d1). apply last_written_from.
Qed.

Lemma last_written_none (k : UrlField) (data : list Urls.t) :
  Forall (fun g => written k g = None) data -> last_written k data = None.
Proof.
  induction 1 as [|g data Hg _ IH]; [reflexivity|].
  by rewrite last_written_cons, IH.
Qed.

Lemma overlay_values_get (k : UrlField) (v : UrlValues)
    (data : list Urls.t) :
  get_url k (overlay_values v data)
  = from_option id (get_url k v) (last_written k data).
Proof.
  revert v. induction data as [|g data IH]; intros v; [reflexivity|].
  unfold overlay_values in *. cbn [foldl].
  rewrite IH, overlay_values_group_get, last_written_cons.
  destruct (last_written k data); [reflexivity|].
  by destruct (written k g).
Qed.

Lemma mapUrlsToState_read (data : list Urls.t) (p : Page) (v0 : UrlValues) :
  read (page_heap p) defaultUrls = Some v0 ->
  read (page_heap (exec (mapUrlsToState data) p)) defaultUrls
  = Some (overlay_values v0 data).
Proof.
  intros Hr. unfold exec. rewrite mapUrlsToState_spec. by apply overlay_read.
Qed.

(** X18: after the overlay every URL is the one written by the last group
    of the data that writes it, and a URL that no group writes keeps the
    value it had; a group writes the URLs of the section its identifier
    names, from its first items, when it has as many items as the section
    has URLs. *)
Theorem overlay_last_writer_wins (data : list Urls.t) (p : Page)
    (v0 : UrlValues) :
  read (page_heap p) defaultUrls = Some v0 ->
  exists v,
    read (page_heap (exec (mapUrlsToState data) p)) defaultUrls = Some v /\
    (forall k d1 g d2 u,
       data = d1 ++ g :: d2 -> written k g = Some u ->
       Forall (fun g' => written k g' = None) d2 ->
       get_url k v = u) /\
    (forall k, Forall (fun g => written k g = None) data ->
       get_url k v = get_url k v0).
Proof.
  intros Hr. exists (overlay_values v0 data).
  split; [by apply mapUrlsToState_read|]. split.
  - intros k d1 g d2 u -> Hw Hn.
    rewrite overlay_values_get, last_written_app, last_written_cons.
    by rewrite (last_written_none _ _ Hn), Hw.
  - intros k Hn. by rewrite overlay_values_get, (last_written_none _ _ Hn).
Qed.

Lemma overlay_last_writer_wins_witness :
  exists v,
    read
      (page_heap
         (exec (mapUrlsToState
                  (Urls.mk (js "4") (Some [Urls.mkItem (js "#lama")])
                   :: example_groups))
            fresh_page))
      defaultUrls = Some v /\
    get_url PricingSchedule v = js "https://app.rapatin.id/jadwal" /\
    get_url NavbarLogin v = js "https://rapatin.id/login".
Proof.
  destruct (overlay_last_writer_wins
              (Urls.mk (js "4") (Some [Urls.mkItem (js "#lama")])
               :: example_groups)
              fresh_page default_values read_heap0) as (v & Hr & Hw & Hk).
  exists v. split; [exact Hr|]. split.
  - apply (Hw PricingSchedule
             [Urls.mk (js "4") (Some [Urls.mkItem (js "#lama")]);
              Urls.mk (js "1")
                (Some [Urls.mkItem (js "https://rapatin.id/daftar");
                       Urls.mkItem (js "#harga")])]
             (Urls.mk (js "4")
                (Some [Urls.mkItem (js "https://app.rapatin.id/jadwal")]))
             [Urls.mk (js "3")
                (Some [Urls.mkItem (js "https://rapatin.id/masuk")])]);
      [reflexivity|reflexivity|].
    repeat constructor.
  - rewrite (Hk NavbarLogin); [reflexivity|]. repeat constructor.
Defined.

(** X19: the overlay is idempotent: running [mapUrlsToState] on the same
    data again leaves every URL as the first run left it. *)
Theorem overlay_twice_is_once (data : list Urls.t) (p : Page)
    (v0 : UrlValues) :
  read (page_heap p) defaultUrls = Some v0 ->
  read
    (page_heap (exec (mapUrlsToState data) (exec (mapUrlsToState data) p)))
    defaultUrls
  = read (page_heap (exec (mapUrlsToState data) p)) defaultUrls.
Proof.
  intros Hr.
  rewrite (mapUrlsToState_read data _ (overlay_values v0 data))
    by (by apply mapUrlsToState_read).
  rewrite (mapUrlsToState_read data p v0) by exact Hr.
  f_equal. apply url_values_ext. intros k.
  rewrite !overlay_values_get.
  by destruct (last_written k data).
Qed.

Lemma overlay_twice_is_once_witness :
  read
    (page_heap
       (exec (mapUrlsToState example_groups)
          (exec (mapUrlsToState example_groups) fresh_page)))
    defaultUrls
  = Some example_overlaid.
Proof.
  rewrite (overlay_twice_is_once example_groups fresh_page default_values
             read_heap0).
  reflexivity.
Defined.

Lemma written_other_group (k : UrlField) (g : Urls.t) :
  Urls.id g <> group_of k \/ usable g = false -> written k g = None.
Proof.
  unfold written. intros [H|H].
  - by rewrite (bool_decide_eq_false_2 _ H), andb_false_r.
  - by rewrite H.
Qed.

(** X20: a URL changes only through a usable group of its own section: when
    every group of the data has another identifier than the section of the
    URL, or is not usable (no items, too few items, an identifier that is
    none of the five), the URL reads after the overlay as it did before. *)
Theorem overlay_keeps_other_sections (k : UrlField) (data : list Urls.t)
    (p : Page) (v0 : UrlValues) :
  read (page_heap p) defaultUrls = Some v0 ->
  Forall (fun g => Urls.id g <> group_of k \/ usable g = false) data ->
  exists v,
    read (page_heap (exec (mapUrlsToState data) p)) defaultUrls = Some v /\
    get_url k v = get_url k v0.
Proof.
  intros Hr Hd. exists (overlay_values v0 data).
  split; [by apply mapUrlsToState_read|].
  rewrite overlay_values_get, last_written_none; [reflexivity|].
  eapply Forall_impl; [exact Hd|]. intros g. apply written_other_group.
Qed.

Lemma overlay_keeps_other_sections_witness :
  exists v,
    read (page_heap (exec (mapUrlsToState example_groups) fresh_page))
      defaultUrls = Some v /\
    get_url NavbarRegister v = js "https://rapatin.id/register".
Proof.
  destruct (overlay_keeps_other_sections NavbarRegister example_groups
              fresh_page default_values read_heap0) as (v & Hr & Hk).
  - constructor; [left; vm_compute; discriminate|].
    constructor; [left; vm_compute; discriminate|].
    constructor; [right; reflexivity|constructor].
  - exists v. split; [exact Hr|exact Hk].
Defined.

(** ** The overlay on the heap *)


Lemma overlay_group_unusable (u : UrlMap) (g : Urls.t) (h : heap) :
  usable g = false -> overlay_group u g h = h.
Proof.
  unfold usable, items_needed, overlay_group.
  destruct g as [gid [items|]]; cbn [Urls.items Urls.id]; [|reflexivity].
  destruct (decide (gid = js "1")) as [->|N1];
    [decide_group_id; cbn [andb]; by intros ->|].
  rewrite (bool_decide_eq_false_2 (gid = js "1")) by exact N1.
  destruct (decide (gid = js "2")) as [->|N2];
    [decide_group_id; cbn [andb]; by intros ->|].
  rewrite (bool_decide_eq_false_2 (gid = js "2")) by exact N2.
  destruct (decide (gid = js "3")) as [->|N3];
    [decide_group_id; cbn [andb]; by intros ->|].
  rewrite (bool_decide_eq_false_2 (gid = js "3")) by exact N3.
  destruct (decide (gid = js "4")) as [->|N4];
    [decide_group_id; cbn [andb]; by intros ->|].
  rewrite (bool_decide_eq_false_2 (gid = js "4")) by exact N4.
  destruct (decide (gid = js "5")) as [->|N5];
    [decide_group_id; cbn [andb]; by intros ->|].
  rewrite (bool_decide_eq_false_2 (gid = js "5")) by exact N5.
  reflexivity.
Qed.

(** X21: data of which no group is usable change nothing: the heap, and
    with it the default map, is exactly as before, and so are [loading] and
    [error]; the [urls] state is set to the copy, which holds the same
    section objects. *)
Theorem unusable_groups_change_nothing (data : list Urls.t) (p : Page) :
  Forall (fun g => usable g = false) data ->
  exec (mapUrlsToState data) p
  = mkPage (page_heap p)
      (mkHook defaultUrls (loading (hook p)) (error (hook p))) (urlData p).
Proof.
  intros Hd. unfold exec. rewrite mapUrlsToState_spec. cbn [snd].
  f_equal. generalize (page_heap p).
  induction Hd as [|g data Hg _ IH]; intros h; [reflexivity|].
  cbn [foldl]. by rewrite overlay_group_unusable, IH.
Qed.

Lemma unusable_groups_change_nothing_witness :
  page_heap
    (exec (mapUrlsToState
             [ Urls.mk (js "1") (Some [Urls.mkItem (js "#satu")]);
               Urls.mk (js "2") None;
               Urls.mk (js "6") (Some [Urls.mkItem (js "#enam")]);
               Urls.mk (js "3") (Some []) ])
       fresh_page)
  = heap0.
Proof.
  rewrite unusable_groups_change_nothing; [reflexivity|].
  repeat constructor.
Defined.

(** X22: overlays accumulate.  Because the default map itself is written,
    running [mapUrlsToState] on [d1] and then on [d2] gives the page that one
    run on [d1 ++ d2] gives: a URL that [d2] does not write keeps what [d1]
    wrote instead of going back to its literal. *)
Theorem overlays_accumulate (d1 d2 : list Urls.t) (p : Page)
    (v0 : UrlValues) :
  read (page_heap p) defaultUrls = Some v0 ->
  exec (mapUrlsToState d2) (exec (mapUrlsToState d1) p)
  = exec (mapUrlsToState (d1 ++ d2)) p /\
  exists v1 v2,
    read (page_heap (exec (mapUrlsToState d1) p)) defaultUrls = Some v1 /\
    read (page_heap (exec (mapUrlsToState d2) (exec (mapUrlsToState d1) p)))
      defaultUrls = Some v2 /\
    forall k, Forall (fun g => written k g = None) d2 ->
      get_url k v2 = get_url k v1.
Proof.
  intros Hr. split.
  - unfold exec. rewrite !mapUrlsToState_spec. cbn [snd page_heap hook
      urlData loading error]. by rewrite foldl_app.
  - exists (overlay_values v0 d1), (overlay_values (overlay_values v0 d1) d2).
    pose proof (mapUrlsToState_read d1 p v0 Hr) as H1.
    split; [exact H1|]. split; [by apply mapUrlsToState_read|].
    intros k Hn. by rewrite overlay_values_get, (last_written_none _ _ Hn).
Qed.

Lemma overlays_accumulate_witness :
  read
    (page_heap
       (exec (mapUrlsToState
                [Urls.mk (js "2") (Some [Urls.mkItem (js "#daftar")])])
          (exec (mapUrlsToState example_groups) fresh_page)))
    defaultUrls
  = Some
      (mkUrlValues (js "https://rapatin.id/daftar") (js "#harga")
         (js "#daftar")
         (js "https://rapatin.id/login") (js "https://rapatin.id/register")
         (js "https://app.rapatin.id/jadwal")
         (js "https://app.rapatin.id/register")).
Proof.
  destruct (overlays_accumulate example_groups
              [Urls.mk (js "2") (Some [Urls.mkItem (js "#daftar")])]
              fresh_page default_values read_heap0) as (-> & _).
  vm_compute. reflexivity.
Defined.




(** ** The fetch *)



(** X25: a fetch that succeeds overlays the rows when there is at least
    one and changes nothing but [loading] when there is none; either way
    it leaves [error] as it was, so an error of an earlier run is not
    cleared. *)
Theorem fetch_success (JSON_parse : jsstring -> Error + list Urls.t)
    (data : option (list Urls.t)) (p : Page) (v0 : UrlValues) :
  read (page_heap p) defaultUrls = Some v0 ->
  let p' := exec (fetchUrls JSON_parse (Resolved data None)) p in
  error (hook p') = error (hook p) /\
  (forall g gs, data = Some (g :: gs) ->
     urls (hook p') = defaultUrls /\
     read (page_heap p') defaultUrls = Some (overlay_values v0 (g :: gs))) /\
  (data = None \/ data = Some [] ->
     p' = mkPage (page_heap p)
            (mkHook (urls (hook p)) false (error (hook p))) (urlData p)).
Proof.
  intros Hr p'. subst p'.
  unfold exec, fetchUrls, try_catch_finally, bind, setLoading, ret.
  destruct data as [[|g gs]|];
    cbn [urlData hook page_heap urls loading error fst snd].
  - split; [reflexivity|]. split; [discriminate|auto].
  - rewrite mapUrlsToState_spec.
    cbn [urlData hook page_heap urls loading error fst snd].
    split; [reflexivity|]. split.
    + intros g' gs' [= <- <-]. split; [reflexivity|]. by apply overlay_read.
    + intros [H|H]; discriminate H.
  - split; [reflexivity|]. split; [discriminate|auto].
Qed.

Lemma fetch_success_witness :
  read
    (page_heap
       (exec (fetchUrls example_parse (Resolved (Some example_groups) None))
          fresh_page))
    defaultUrls = Some example_overlaid /\
  exec (fetchUrls example_parse (Resolved (Some []) None)) fresh_page
  = mkPage heap0 (mkHook defaultUrls false None) None.
Proof.
  split.
  - destruct (fetch_success example_parse (Some example_groups) fresh_page
                default_values read_heap0) as (_ & H & _).
    destruct example_groups as [|g gs] eqn:E; [discriminate E|].
    destruct (H g gs eq_refl) as [_ Hr]. rewrite Hr.
    rewrite <- E. reflexivity.
  - destruct (fetch_success example_parse (Some []) fresh_page
                default_values read_heap0) as (_ & _ & H).
    apply H. right. reflexivity.
Defined.


